(** * Buscador Mercado Livre: a shallow embedding of [ml_api_streamlit.py]

    The program is one pipeline: fetch ten pages, keep the products that
    match the quoted terms of the query, project every product to a display
    row, apply the widgets' filters, sort by price.

    Conventions of the embedding.
    - A Python [str] is a [string]: the sequence of the bytes of its UTF-8
      encoding.  The double quote is a single byte that occurs in no
      multi-byte sequence, and UTF-8 is self-synchronising, so the scan for
      quoted terms and the substring test [in] give on bytes what Python
      gives on code points.
    - [str.lower] is not modelled byte by byte: it is a parameter [lower] of
      the development.  [ascii_lower] is the instance used to run the
      examples; it is what [str.lower] does on ASCII text.
    - A JSON object read with [dict.get] is a record of [option] fields:
      [None] is an absent key.
    - A price is an exact number; the model takes it in [Z].  An absent
      price becomes NaN in the [DataFrame]; it is [None] here. *)

From Stdlib Require Import List String Ascii ZArith Bool Arith Lia.
From Stdlib Require Import Permutation Sorted Mergesort Orders.
Import ListNotations.
Local Open Scope string_scope.
Local Open Scope list_scope.

(** ** Strings *)

Module Str.

(** The double quote, byte 34. *)
Definition aspas : ascii := Ascii false true false false false true false false.

Definition is_aspas (c : ascii) : bool := Ascii.eqb c aspas.

(** [no_aspas s]: the double quote does not occur in [s]. *)
Fixpoint no_aspas (s : string) : bool :=
  match s with
  | EmptyString => true
  | String c s' => negb (is_aspas c) && no_aspas s'
  end.

(** [startswith s t]: Python's [t.startswith(s)]. *)
Fixpoint startswith (s t : string) : bool :=
  match s, t with
  | EmptyString, _ => true
  | String _ _, EmptyString => false
  | String a s', String b t' => Ascii.eqb a b && startswith s' t'
  end.

(** [str_in s t]: Python's [s in t] on strings, the substring test. *)
Fixpoint str_in (s t : string) : bool :=
  startswith s t ||
  match t with
  | EmptyString => false
  | String _ t' => str_in s t'
  end.

(** The property [str_in] decides. *)
Definition Substring (s t : string) : Prop :=
  exists pre post, t = (pre ++ s ++ post)%string.

(** [re.findall] for the pattern: a quote, a group of characters other
    than the quote, a quote.  The scan goes from left to right; [aberto]
    is [Some buf] after an opening quote, [buf] being the characters read
    since.  A closing quote emits the group and the scan resumes after it;
    an opening quote that is never closed matches nothing. *)
Fixpoint findall_scan (aberto : option string) (q : string) : list string :=
  match q with
  | EmptyString => []
  | String c q' =>
      match aberto with
      | None =>
          if is_aspas c then findall_scan (Some EmptyString) q'
          else findall_scan None q'
      | Some buf =>
          if is_aspas c then buf :: findall_scan None q'
          else findall_scan (Some (buf ++ String c EmptyString)%string) q'
      end
  end.

Definition findall_aspas (q : string) : list string := findall_scan None q.

(** [str.lower] on ASCII text. *)
Definition ascii_lower_char (c : ascii) : ascii :=
  let n := nat_of_ascii c in
  if (65 <=? n)%nat && (n <=? 90)%nat then ascii_of_nat (n + 32) else c.

Fixpoint ascii_lower (s : string) : string :=
  match s with
  | EmptyString => EmptyString
  | String c s' => String (ascii_lower_char c) (ascii_lower s')
  end.

Definition quoted (t : string) : string :=
  String aspas (t ++ String aspas EmptyString)%string.

End Str.

(** ** Data model *)

(** The [shipping] object of a product. *)
Record Shipping : Type := mkShipping {
  free_shipping : option bool
}.

(** A product as the search API returns it. *)
Record RawProduct : Type := mkRawProduct {
  title : option string;
  price : option Z;
  permalink : option string;
  condition : option string;
  shipping : option Shipping;
  sold_quantity : option Z
}.

(** A row of the [DataFrame]: the dictionary [extrair_dados_produto] builds. *)
Record DisplayRecord : Type := mkDisplayRecord {
  Nome : option string;
  Preco : option Z;
  Link : option string;
  Condicao : string;
  FreteGratis : string;
  Vendidos : Z
}.

(** Python's truth value of [d.get(k)] for a boolean field. *)
Definition truthy (b : option bool) : bool :=
  match b with
  | Some true => true
  | _ => false
  end.

(** [produto.get('shipping', {}).get('free_shipping')] *)
Definition get_free_shipping (produto : RawProduct) : option bool :=
  match shipping produto with
  | Some s => free_shipping s
  | None => None
  end.

(** [produto.get('condition') == 'new'] *)
Definition condition_is_new (produto : RawProduct) : bool :=
  match condition produto with
  | Some c => String.eqb c "new"
  | None => false
  end.

Definition extrair_dados_produto (produto : RawProduct) : DisplayRecord :=
  {| Nome := title produto;
     Preco := price produto;
     Link := permalink produto;
     Condicao := if condition_is_new produto then "Novo" else "Usado";
     FreteGratis := if truthy (get_free_shipping produto) then "Sim" else "Não";
     Vendidos := match sold_quantity produto with
                 | Some n => n
                 | None => 0%Z
                 end |}.

(** ** The exact-match filter *)

Section BuscaExata.

Variable lower : string -> string.

(** [produto.get('title', '').lower()] *)
Definition titulo_de (produto : RawProduct) : string :=
  lower (match title produto with
         | Some t => t
         | None => EmptyString
         end).

(** [all(termo.lower() in titulo for termo in termos_exatos)] *)
Definition todos_os_termos (termos_exatos : list string) (titulo : string) : bool :=
  forallb (fun termo => Str.str_in (lower termo) titulo) termos_exatos.

(** The loop over [produtos]: one step appends the product when every term
    is in its title. *)
Definition passo_filtro (termos_exatos : list string)
    (produtos_filtrados : list RawProduct) (produto : RawProduct)
    : list RawProduct :=
  if todos_os_termos termos_exatos (titulo_de produto)
  then produtos_filtrados ++ [produto]
  else produtos_filtrados.

Definition processar_busca_exata (produtos : list RawProduct) (query : string)
    : list RawProduct :=
  let termos_exatos := Str.findall_aspas query in
  match termos_exatos with
  | [] => produtos
  | _ :: _ => fold_left (passo_filtro termos_exatos) produtos []
  end.

End BuscaExata.

(** ** The network and the session *)

(** What [response.json()] gives.  The body is taken to be what the API
    documents, when it is JSON at all: an object whose [results], when the
    key is present, is a list of products. *)
Inductive json_body : Type :=
| NotJson
| JsonObject (results : option (list RawProduct)).

(** What [requests.get(url)] gives: no response at all (connection refused,
    time-out, ...) or a response with its status code and body. *)
Inductive http_outcome : Type :=
| NoResponse (motivo : string)
| Response (status_code : Z) (corpo : json_body).

(** The exceptions the model raises; all are subclasses of
    [requests.exceptions.RequestException] ([JSONDecodeError] is the one of
    [requests.exceptions]). *)
Inductive request_exception : Type :=
| ConnectionError (motivo : string)
| HTTPError (status_code : Z)
| JSONDecodeError.

(** The request of one page: the URL carries the percent-encoded query, the
    offset and the limit. *)
Record Request : Type := mkRequest {
  req_q : string;
  req_offset : Z;
  req_limit : Z
}.

(** What the page shows besides the table: [st.error(f"Erro ao buscar
    produtos: {str(e)}")] and [st.warning("Nenhum produto encontrado.")]. *)
Inductive ui_event : Type :=
| StError (e : request_exception)
| StWarning.

(** The session: the requests sent so far and the messages shown so far,
    both in order. *)
Record Sessao : Type := mkSessao {
  chamadas : list Request;
  tela : list ui_event
}.

Definition sessao_inicial : Sessao := {| chamadas := []; tela := [] |}.

Inductive resultado (A : Type) : Type :=
| Ok (a : A)
| Raise (e : request_exception).
Arguments Ok {A} a.
Arguments Raise {A} e.

(** A computation reads and extends the session and returns or raises. *)
Definition M (A : Type) : Type := Sessao -> resultado A * Sessao.

Definition ret {A : Type} (a : A) : M A := fun s => (Ok a, s).

Definition bind {A B : Type} (m : M A) (k : A -> M B) : M B :=
  fun s =>
    match m s with
    | (Ok a, s') => k a s'
    | (Raise e, s') => (Raise e, s')
    end.

Definition raise {A : Type} (e : request_exception) : M A :=
  fun s => (Raise e, s).

(** [try: body except requests.exceptions.RequestException as e: handler] *)
Definition try_except {A : Type} (body : M A) (handler : request_exception -> M A)
    : M A :=
  fun s =>
    match body s with
    | (Raise e, s') => handler e s'
    | (Ok a, s') => (Ok a, s')
    end.

Notation "x <- m ;; k" := (bind m (fun x => k))
  (at level 61, m at next level, right associativity).
Notation "m ;;; k" := (bind m (fun _ => k))
  (at level 61, right associativity).

Definition st_error (e : request_exception) : M unit :=
  fun s => (Ok tt, {| chamadas := chamadas s; tela := tela s ++ [StError e] |}).

Definition st_warning : M unit :=
  fun s => (Ok tt, {| chamadas := chamadas s; tela := tela s ++ [StWarning] |}).

(** [range(start, stop, step)] for a positive step. *)
Definition py_range (start stop step : Z) : list Z :=
  map (fun k => (start + step * Z.of_nat k)%Z)
      (seq 0 (Z.to_nat ((stop - start + step - 1) / step))).

Section Busca.

(** The network: the answer to a request, given how many requests the
    session sent before it. *)
Variable rede : nat -> Request -> http_outcome.

(** [requests.get(url)] *)
Definition requests_get (url : Request) : M (Z * json_body) :=
  fun s =>
    let s' := {| chamadas := chamadas s ++ [url]; tela := tela s |} in
    match rede (List.length (chamadas s)) url with
    | NoResponse motivo => (Raise (ConnectionError motivo), s')
    | Response status_code corpo => (Ok (status_code, corpo), s')
    end.

(** [response.raise_for_status()]: [HTTPError] for the client errors 4xx and
    the server errors 5xx. *)
Definition raise_for_status (response : Z * json_body) : M unit :=
  let status_code := fst response in
  if ((400 <=? status_code) && (status_code <? 600))%Z
  then raise (HTTPError status_code)
  else ret tt.

(** [response.json()] followed by [data.get('results', [])]. *)
Definition json_results (response : Z * json_body) : M (list RawProduct) :=
  match snd response with
  | NotJson => raise JSONDecodeError
  | JsonObject (Some results) => ret results
  | JsonObject None => ret []
  end.

Definition buscar_produtos_ml (query : string) (offset limit : Z)
    : M (list RawProduct) :=
  let url := {| req_q := query; req_offset := offset; req_limit := limit |} in
  try_except
    (response <- requests_get url ;;
     raise_for_status response ;;;
     json_results response)
    (fun e => st_error e ;;; ret []).

(** The loop of [main] over the offsets: [todos_produtos.extend(produtos)]. *)
Fixpoint buscar_paginas (busca : string) (offsets : list Z)
    (todos_produtos : list RawProduct) : M (list RawProduct) :=
  match offsets with
  | [] => ret todos_produtos
  | offset :: resto =>
      produtos <- buscar_produtos_ml busca offset 50 ;;
      buscar_paginas busca resto (todos_produtos ++ produtos)
  end.

Definition buscar_todos (busca : string) : M (list RawProduct) :=
  buscar_paginas busca (py_range 0 500 50) [].

End Busca.

(** ** The widgets' filters *)

(** [if filtro_frete: df = df[df['Frete Grátis'] == 'Sim']] *)
Definition filtrar_frete (filtro_frete : bool) (df : list DisplayRecord)
    : list DisplayRecord :=
  if filtro_frete
  then filter (fun r => String.eqb (FreteGratis r) "Sim") df
  else df.

(** [Series.isin(values)] on one cell. *)
Definition isin (values : list string) (x : string) : bool :=
  existsb (String.eqb x) values.

(** [if condicao: df = df[df['Condição'].isin(condicao)]]: an empty list is
    false in Python, so the guard skips the filter for an empty selection. *)
Definition filtrar_condicao (condicao : list string) (df : list DisplayRecord)
    : list DisplayRecord :=
  match condicao with
  | [] => df
  | _ :: _ => filter (fun r => isin condicao (Condicao r)) df
  end.

(** ** Sorting by price *)

(** [pandas.isna] on a cell of the price column. *)
Definition isna (x : option Z) : bool :=
  match x with
  | None => true
  | Some _ => false
  end.

(** [a[mask]]: the elements of [a] at the positions where [mask] is true. *)
Definition bool_index {A : Type} (a : list A) (mask : list bool) : list A :=
  map fst (filter snd (combine a mask)).

(** The numbers of a column whose missing cells were masked out. *)
Definition valores (items : list (option Z)) : list Z :=
  flat_map (fun x => match x with Some v => [v] | None => [] end) items.

(** [DataFrame.take(indexer)]: the rows at the positions of [indexer], in
    that order. *)
Definition take (df : list DisplayRecord) (indexer : list nat)
    : list DisplayRecord :=
  flat_map (fun i => match nth_error df i with Some r => [r] | None => [] end)
           indexer.

Section Ordenacao.

(** [ndarray.argsort(kind='quicksort')] of numpy: the positions of the keys
    in an order that sorts them.  The algorithm is numpy's own; the
    development assumes of it only [argsort_ok] below, where it needs it. *)
Variable argsort : list Z -> list nat.

(** [pandas.core.sorting.nargsort] with [na_position='last'], as
    [DataFrame.sort_values] calls it for one column: the missing cells are
    masked out, the rest is sorted (reversed before and after for a
    descending order), and the positions of the missing cells come last. *)
Definition nargsort (ascending : bool) (items : list (option Z)) : list nat :=
  let mask := map isna items in
  let idx := seq 0 (List.length items) in
  let non_nans := valores items in
  let non_nan_idx := bool_index idx (map negb mask) in
  let nan_idx := bool_index idx mask in
  let non_nans := if ascending then non_nans else rev non_nans in
  let non_nan_idx := if ascending then non_nan_idx else rev non_nan_idx in
  let indexer := map (fun j => nth j non_nan_idx 0%nat) (argsort non_nans) in
  let indexer := if ascending then indexer else rev indexer in
  indexer ++ nan_idx.

(** [df.sort_values('Preço', ascending=ascending)] *)
Definition sort_values (ascending : bool) (df : list DisplayRecord)
    : list DisplayRecord :=
  take df (nargsort ascending (map Preco df)).

(** [if ordem == "Menor para maior": ... else: ...] *)
Definition ordenar (ordem : string) (df : list DisplayRecord)
    : list DisplayRecord :=
  if String.eqb ordem "Menor para maior"
  then sort_values true df
  else sort_values false df.

End Ordenacao.

(** What the development assumes of numpy's [argsort]: it returns every
    position once, and the keys read in that order are sorted.  Nothing is
    assumed on the order of equal keys. *)
Definition argsort_ok (argsort : list Z -> list nat) : Prop :=
  forall ks : list Z,
    Permutation (argsort ks) (seq 0 (List.length ks)) /\
    Sorted Z.le (map (fun i => nth i ks 0%Z) (argsort ks)).

(** The price of a row as a number; rows without a price are not compared. *)
Definition chave (r : DisplayRecord) : Z :=
  match Preco r with
  | Some v => v
  | None => 0%Z
  end.

(** An [argsort] that can be run: merge sort of the pairs (position, key) on
    the key. *)
Module ChaveOrder <: TotalLeBool.
Definition t : Type := (nat * Z)%type.
Definition leb (a b : t) : bool := (snd a <=? snd b)%Z.
Definition leb_total (a b : t) : leb a b = true \/ leb b a = true.
Proof.
  unfold leb.
  destruct (Z.leb_spec (snd a) (snd b)) as [H | H]; [now left | right].
  apply Z.leb_le. lia.
Qed.
End ChaveOrder.

Module OrdenaChave := Sort ChaveOrder.

Definition argsort_merge (ks : list Z) : list nat :=
  map fst (OrdenaChave.sort (combine (seq 0 (List.length ks)) ks)).

(** ** The page *)

Section Principal.

Variable lower : string -> string.
Variable argsort : list Z -> list nat.
Variable rede : nat -> Request -> http_outcome.

(** The rows of the table after the projection and the two filters. *)
Definition filtrar (filtro_frete : bool) (condicao : list string)
    (todos_produtos : list RawProduct) : list DisplayRecord :=
  let df := map extrair_dados_produto todos_produtos in
  let df := filtrar_frete filtro_frete df in
  filtrar_condicao condicao df.

(** [main]: [busca] is the text input, [ordem], [filtro_frete] and
    [condicao] are the values of the three widgets.  The result is the
    [DataFrame] after the filters and the sort, or [None] when the page
    stops before building it.  The model ends there: the column of
    formatted prices, the metrics, the table and the chart are not part of
    it.  In the program the formatted prices are computed before the
    filters, and the formatting raises [TypeError] when no kept product has
    a price; there the model still gives the table that the filters and
    the sort would build, and no property below states that [main]
    returns. *)
Definition main (busca ordem : string) (filtro_frete : bool)
    (condicao : list string) : M (option (list DisplayRecord)) :=
  match busca with
  | EmptyString => ret None
  | String _ _ =>
      todos_produtos <- buscar_todos rede busca ;;
      let todos_produtos := processar_busca_exata lower todos_produtos busca in
      match todos_produtos with
      | [] => st_warning ;;; ret None
      | _ :: _ =>
          let df := filtrar filtro_frete condicao todos_produtos in
          let df := ordenar argsort ordem df in
          ret (Some df)
      end
  end.

End Principal.

(** ** Vocabulary of the properties *)

(** [Retained P l l']: [l'] is [l] without the elements that fail [P], in
    the order of [l]. *)
Inductive Retained {A : Type} (P : A -> Prop) : list A -> list A -> Prop :=
| Retained_nil : Retained P [] []
| Retained_keep (x : A) (l l' : list A) :
    P x -> Retained P l l' -> Retained P (x :: l) (x :: l')
| Retained_drop (x : A) (l l' : list A) :
    ~ P x -> Retained P l l' -> Retained P (x :: l) l'.

(** [Subseq l' l]: [l'] is [l] with some elements removed. *)
Inductive Subseq {A : Type} : list A -> list A -> Prop :=
| Subseq_nil : Subseq [] []
| Subseq_keep (x : A) (l' l : list A) : Subseq l' l -> Subseq (x :: l') (x :: l)
| Subseq_drop (x : A) (l' l : list A) : Subseq l' l -> Subseq l' (x :: l).

(** The query has a term between double quotes. *)
Definition TemTermoEntreAspas (query : string) : Prop :=
  exists u t r, query = (u ++ Str.quoted t ++ r)%string.

(** The number of double quotes of a string. *)
Fixpoint count_aspas (s : string) : nat :=
  match s with
  | EmptyString => 0
  | String c s' => (if Str.is_aspas c then 1 else 0) + count_aspas s'
  end.

(** A product's title has every term, whatever the case of the letters. *)
Definition TituloTemTermos (lower : string -> string) (termos : list string)
    (produto : RawProduct) : Prop :=
  forall termo, In termo termos ->
    Str.Substring (lower termo) (titulo_de lower produto).

(** The page fetch fails with [e]: no response, or a response with a client
    or server error status. *)
Inductive FalhaDePagina : http_outcome -> request_exception -> Prop :=
| Falha_transporte (motivo : string) :
    FalhaDePagina (NoResponse motivo) (ConnectionError motivo)
| Falha_http (status_code : Z) (corpo : json_body) :
    (400 <= status_code < 600)%Z ->
    FalhaDePagina (Response status_code corpo) (HTTPError status_code).

(** The session after one more request and one more message. *)
Definition apos_chamada (s : Sessao) (url : Request) (msgs : list ui_event)
    : Sessao :=
  {| chamadas := chamadas s ++ [url]; tela := tela s ++ msgs |}.

(** The ten requests of a search, in order. *)
Definition pedidos (busca : string) : list Request :=
  map (fun offset => {| req_q := busca; req_offset := offset; req_limit := 50 |})
      [0; 50; 100; 150; 200; 250; 300; 350; 400; 450]%Z.

(** [PaginasEmOrdem rede busca offsets s paginas s']: from the session [s],
    the fetcher called once for each offset, in order, returned [paginas]
    and left the session [s']. *)
Inductive PaginasEmOrdem (rede : nat -> Request -> http_outcome) (busca : string)
    : list Z -> Sessao -> list (list RawProduct) -> Sessao -> Prop :=
| Paginas_nil (s : Sessao) : PaginasEmOrdem rede busca [] s [] s
| Paginas_cons (offset : Z) (offsets : list Z) (s s1 s2 : Sessao)
    (pagina : list RawProduct) (paginas : list (list RawProduct)) :
    buscar_produtos_ml rede busca offset 50 s = (Ok pagina, s1) ->
    PaginasEmOrdem rede busca offsets s1 paginas s2 ->
    PaginasEmOrdem rede busca (offset :: offsets) s (pagina :: paginas) s2.

(** The example of the specification: the query with two quoted terms and
    the three titles. *)
Definition produto_de_titulo (t : string) : RawProduct :=
  {| title := Some t; price := None; permalink := None; condition := None;
     shipping := None; sold_quantity := None |}.

Definition exemplo_query : string :=
  ("notebook " ++ Str.quoted "dell" ++ " " ++ Str.quoted "novo")%string.

Definition exemplo_produtos : list RawProduct :=
  [ produto_de_titulo "Notebook Dell Novo i5";
    produto_de_titulo "Notebook HP Novo";
    produto_de_titulo "Notebook Dell Usado" ].

(** Rows and products used to run the definitions. *)
Definition linha (preco : option Z) : DisplayRecord :=
  {| Nome := None; Preco := preco; Link := None; Condicao := "Novo";
     FreteGratis := "Sim"; Vendidos := 0 |}.

Definition produto_completo : RawProduct :=
  {| title := Some "Notebook Dell"; price := Some 2500%Z;
     permalink := Some "https://produto.mercadolivre.com.br/MLB-1";
     condition := Some "new";
     shipping := Some {| free_shipping := Some true |};
     sold_quantity := Some 7%Z |}.

Definition produto_vazio : RawProduct :=
  {| title := None; price := None; permalink := None; condition := None;
     shipping := None; sold_quantity := None |}.

(** A network that answers every request with status 200 and the same page
    of fifty products. *)
Definition rede_cheia : nat -> Request -> http_outcome :=
  fun _ _ => Response 200 (JsonObject (Some (repeat produto_completo 50))).

(** A network that is down, and one that answers every request with status
    300 and a page of one product. *)
Definition rede_fora : nat -> Request -> http_outcome :=
  fun _ _ => NoResponse "Connection refused".

Definition rede_300 : nat -> Request -> http_outcome :=
  fun _ _ => Response 300 (JsonObject (Some [produto_completo])).

(** Three rows with different prices; the rows of a product with a price
    and of a product without one. *)
Definition df_distintos : list DisplayRecord :=
  [linha (Some 30%Z); linha (Some 10%Z); linha (Some 20%Z)].

Definition df_sem_preco : list DisplayRecord :=
  map extrair_dados_produto [produto_completo; produto_vazio].

(** ** The rest of the page *)

(** [urllib.parse.quote(query)] on the bytes of the query: the letters, the
    digits and the characters [_ . - ~ /] are kept, every other byte becomes
    a percent sign and its two upper-case hexadecimal digits. *)
Definition seguro (c : ascii) : bool :=
  let n := nat_of_ascii c in
  (((65 <=? n) && (n <=? 90)) || ((97 <=? n) && (n <=? 122))
   || ((48 <=? n) && (n <=? 57))
   || (n =? 95) || (n =? 46) || (n =? 45) || (n =? 126) || (n =? 47))%nat.

Definition hex_digit (n : nat) : ascii :=
  if (n <? 10)%nat then ascii_of_nat (48 + n) else ascii_of_nat (55 + n).

Definition percent : ascii := ascii_of_nat 37.

Definition quote_char (c : ascii) : string :=
  if seguro c then String c EmptyString
  else String percent
         (String (hex_digit (nat_of_ascii c / 16))
            (String (hex_digit (nat_of_ascii c mod 16)) EmptyString)).

Fixpoint quote (s : string) : string :=
  match s with
  | EmptyString => EmptyString
  | String c s' => (quote_char c ++ quote s')%string
  end.

(** The decoding that [quote] admits; it is not part of the program and
    serves to state that [quote] loses nothing. *)
Definition hex_value (c : ascii) : nat :=
  let n := nat_of_ascii c in
  if ((48 <=? n) && (n <=? 57))%nat then n - 48 else n - 55.

Fixpoint unquote (s : string) : string :=
  match s with
  | EmptyString => EmptyString
  | String c s' =>
      if Ascii.eqb c percent then
        match s' with
        | String h (String l s'') =>
            String (ascii_of_nat (16 * hex_value h + hex_value l)) (unquote s'')
        | _ => String c (unquote s')
        end
      else String c (unquote s')
  end.

(** [s.replace(old, new)] for patterns of one character. *)
Fixpoint replace_char (old new : ascii) (s : string) : string :=
  match s with
  | EmptyString => EmptyString
  | String c s' =>
      String (if Ascii.eqb c old then new else c) (replace_char old new s')
  end.

(** The three [replace] of the formatted price:
    [.replace(',', 'X').replace('.', ',').replace('X', '.')]. *)
Definition trocar_separadores (s : string) : string :=
  replace_char "X" "." (replace_char "." "," (replace_char "," "X" s)).

(** The same with the two separators exchanged in one pass. *)
Definition troca (c : ascii) : ascii :=
  if Ascii.eqb c "," then "."%char
  else if Ascii.eqb c "." then ","%char
  else c.

Fixpoint map_string (f : ascii -> ascii) (s : string) : string :=
  match s with
  | EmptyString => EmptyString
  | String c s' => String (f c) (map_string f s')
  end.

(** [c in s] for a character. *)
Fixpoint tem_char (c : ascii) (s : string) : bool :=
  match s with
  | EmptyString => false
  | String d s' => Ascii.eqb d c || tem_char c s'
  end.

(** [df['Preço'].min()] and [df['Preço'].max()]: the missing prices are
    skipped; the result is missing when no price is left. *)
Definition serie_min (items : list (option Z)) : option Z :=
  match valores items with
  | [] => None
  | v :: vs => Some (fold_left Z.min vs v)
  end.

Definition serie_max (items : list (option Z)) : option Z :=
  match valores items with
  | [] => None
  | v :: vs => Some (fold_left Z.max vs v)
  end.

(** What one answer of the network contributes: the products of a page and
    the message of a failed page. *)
Definition produtos_da_resposta (o : http_outcome) : list RawProduct :=
  match o with
  | NoResponse _ => []
  | Response status_code corpo =>
      if ((400 <=? status_code) && (status_code <? 600))%Z then []
      else match corpo with
           | JsonObject (Some results) => results
           | _ => []
           end
  end.

Definition mensagem_da_resposta (o : http_outcome) : list ui_event :=
  match o with
  | NoResponse motivo => [StError (ConnectionError motivo)]
  | Response status_code corpo =>
      if ((400 <=? status_code) && (status_code <? 600))%Z
      then [StError (HTTPError status_code)]
      else match corpo with
           | NotJson => [StError JSONDecodeError]
           | JsonObject _ => []
           end
  end.

(** The answers to the requests of [offsets], sent one after the other from
    a session that has sent [n] requests. *)
Fixpoint respostas (rede : nat -> Request -> http_outcome) (busca : string)
    (n : nat) (offsets : list Z) : list http_outcome :=
  match offsets with
  | [] => []
  | offset :: resto =>
      rede n {| req_q := busca; req_offset := offset; req_limit := 50 |}
      :: respostas rede busca (S n) resto
  end.

(** A query of quoted terms, each after a text without quotes. *)
Fixpoint montar_query (partes : list (string * string)) (fim : string) : string :=
  match partes with
  | [] => fim
  | (u, t) :: resto => (u ++ Str.quoted t ++ montar_query resto fim)%string
  end.

(** [all(P(c) for c in s)] *)
Fixpoint all_chars (P : ascii -> bool) (s : string) : bool :=
  match s with
  | EmptyString => true
  | String c s' => P c && all_chars P s'
  end.

(** A network whose pages have at most fifty products, the limit asked for. *)
Definition PaginasNoLimite (rede : nat -> Request -> http_outcome) : Prop :=
  forall n req status_code results,
    rede n req = Response status_code (JsonObject (Some results)) ->
    List.length results <= 50.

(** * Properties *)

(** ** Strings *)

Lemma startswith_spec (s t : string) :
  Str.startswith s t = true <-> exists post, t = (s ++ post)%string.
Proof.
  revert t. induction s as [| a s IH]; intros t; simpl.
  - split; [intros _; now exists t | reflexivity].
  - destruct t as [| b t]; simpl.
    + split; [discriminate | intros [post H]; discriminate].
    + rewrite andb_true_iff, Ascii.eqb_eq, IH. split.
      * intros [-> [post ->]]. now exists post.
      * intros [post H]. injection H as -> ->. split; [reflexivity | now exists post].
Qed.

Lemma str_in_spec (s t : string) :
  Str.str_in s t = true <-> Str.Substring s t.
Proof.
  unfold Str.Substring. induction t as [| b t IH].
  - simpl. rewrite orb_false_r, startswith_spec. split.
    + intros [post H]. now exists EmptyString, post.
    + intros [pre [post H]]. destruct pre as [| c pre]; [now exists post | discriminate].
  - cbn [Str.str_in]. rewrite orb_true_iff, startswith_spec, IH. split.
    + intros [[post H] | [pre [post H]]].
      * now exists EmptyString, post.
      * exists (String b pre), post. simpl. now rewrite H.
    + intros [pre [post H]]. destruct pre as [| c pre].
      * left. now exists post.
      * right. simpl in H. injection H as _ ->. now exists pre, post.
Qed.

Lemma str_in_empty (t : string) : Str.str_in EmptyString t = true.
Proof. destruct t; reflexivity. Qed.

Lemma string_app_assoc (a b c : string) :
  ((a ++ b) ++ c = a ++ (b ++ c))%string.
Proof. induction a as [| x a IH]; simpl; [reflexivity | now rewrite IH]. Qed.

Lemma string_app_nil_r (a : string) : (a ++ EmptyString)%string = a.
Proof. induction a as [| x a IH]; simpl; [reflexivity | now rewrite IH]. Qed.

Lemma is_aspas_true (c : ascii) : Str.is_aspas c = true -> c = Str.aspas.
Proof. apply Ascii.eqb_eq. Qed.

Lemma count_aspas_app (u v : string) :
  count_aspas (u ++ v)%string = count_aspas u + count_aspas v.
Proof. induction u as [| c u IH]; simpl; [reflexivity | rewrite IH; lia]. Qed.

Lemma count_aspas_quoted (t : string) :
  count_aspas (Str.quoted t) = 2 + count_aspas t.
Proof.
  unfold Str.quoted. cbn [count_aspas]. rewrite count_aspas_app. simpl. lia.
Qed.

Lemma no_aspas_count (s : string) :
  Str.no_aspas s = true <-> count_aspas s = 0.
Proof.
  induction s as [| c s IH]; simpl; [tauto |].
  rewrite andb_true_iff, IH. destruct (Str.is_aspas c); simpl; split.
  - intros [H _]; discriminate.
  - discriminate.
  - intros [_ H]; exact H.
  - intros H; split; [reflexivity | exact H].
Qed.

(** After an opening quote, the scan of a text with a closing quote emits
    the characters up to it. *)
Lemma findall_scan_aberto (t r buf : string) :
  Str.no_aspas t = true ->
  Str.findall_scan (Some buf) (t ++ String Str.aspas r)%string
  = (buf ++ t)%string :: Str.findall_scan None r.
Proof.
  revert buf. induction t as [| c t IH]; intros buf H; simpl in *.
  - now rewrite string_app_nil_r.
  - apply andb_true_iff in H as [Hc Ht]. apply negb_true_iff in Hc.
    rewrite Hc, IH by exact Ht. now rewrite string_app_assoc.
Qed.

(** Outside the quotes, the scan skips a text without quotes. *)
Lemma findall_scan_fora (u r : string) :
  Str.no_aspas u = true ->
  Str.findall_scan None (u ++ r)%string = Str.findall_scan None r.
Proof.
  induction u as [| c u IH]; intros H; simpl in *; [reflexivity |].
  apply andb_true_iff in H as [Hc Hu]. apply negb_true_iff in Hc.
  rewrite Hc. now apply IH.
Qed.

(** The first quoted term of a query is the first term of the scan. *)
Lemma findall_aspas_quoted (u t r : string) :
  Str.no_aspas u = true -> Str.no_aspas t = true ->
  Str.findall_aspas (u ++ Str.quoted t ++ r)%string = t :: Str.findall_aspas r.
Proof.
  intros Hu Ht. unfold Str.findall_aspas. rewrite findall_scan_fora by exact Hu.
  unfold Str.quoted. cbn [append Str.findall_scan]. unfold Str.is_aspas at 1.
  rewrite Ascii.eqb_refl. rewrite string_app_assoc. cbn [append].
  now rewrite findall_scan_aberto by exact Ht.
Qed.

(** The scan emits nothing exactly when no pair of quotes is left. *)
Lemma findall_scan_nil (q : string) :
  (Str.findall_scan None q = [] <-> count_aspas q <= 1) /\
  (forall buf, Str.findall_scan (Some buf) q = [] <-> count_aspas q = 0).
Proof.
  induction q as [| c q [IHn IHs]]; simpl.
  - split; [| intros buf]; split; auto.
  - destruct (Str.is_aspas c); simpl; split.
    + rewrite (IHs EmptyString). lia.
    + intros buf. split; [discriminate | lia].
    + exact IHn.
    + intros buf. apply IHs.
Qed.

Lemma findall_aspas_nil (q : string) :
  Str.findall_aspas q = [] <-> count_aspas q <= 1.
Proof. apply findall_scan_nil. Qed.

(** Every term the scan emits stands between two quotes of the query. *)
Lemma findall_scan_cons (q : string) :
  (forall t ts, Str.findall_scan None q = t :: ts ->
     exists u r, q = (u ++ Str.quoted t ++ r)%string) /\
  (forall buf t ts, Str.findall_scan (Some buf) q = t :: ts ->
     exists t' r, q = (t' ++ String Str.aspas r)%string /\ t = (buf ++ t')%string).
Proof.
  induction q as [| c q [IHn IHs]]; simpl.
  - split; intros; discriminate.
  - destruct (Str.is_aspas c) eqn:Hc; split.
    + intros t ts H. apply is_aspas_true in Hc. subst c.
      destruct (IHs _ _ _ H) as [t' [r [-> Ht]]]. simpl in Ht. subst t'.
      exists EmptyString, r. unfold Str.quoted. simpl.
      now rewrite string_app_assoc.
    + intros buf t ts H. apply is_aspas_true in Hc. subst c.
      injection H as <- _. exists EmptyString, q. simpl.
      now rewrite string_app_nil_r.
    + intros t ts H. destruct (IHn _ _ H) as [u [r ->]].
      now exists (String c u), r.
    + intros buf t ts H. destruct (IHs _ _ _ H) as [t' [r [-> ->]]].
      exists (String c t'), r. simpl. split; [reflexivity |].
      now rewrite string_app_assoc.
Qed.

(** A query has a quoted term exactly when it has two quotes, and exactly
    when the scan emits a term. *)
Lemma tem_termo_count (q : string) :
  TemTermoEntreAspas q <-> 2 <= count_aspas q.
Proof.
  split.
  - intros [u [t [r ->]]].
    rewrite count_aspas_app, count_aspas_app, count_aspas_quoted. lia.
  - intros H. destruct (Str.findall_aspas q) as [| t ts] eqn:E.
    + apply findall_aspas_nil in E. lia.
    + destruct (proj1 (findall_scan_cons q) _ _ E) as [u [r ->]].
      now exists u, t, r.
Qed.

Lemma tem_termo_findall (q : string) :
  TemTermoEntreAspas q <-> Str.findall_aspas q <> [].
Proof.
  rewrite tem_termo_count. split.
  - intros H E. apply findall_aspas_nil in E. lia.
  - intros H. destruct (le_lt_dec 2 (count_aspas q)) as [G | G]; [exact G |].
    exfalso. apply H. apply findall_aspas_nil. lia.
Qed.

(** ** Lists *)

Lemma Retained_filter {A : Type} (P : A -> Prop) (f : A -> bool) (l : list A) :
  (forall x, f x = true <-> P x) -> Retained P l (filter f l).
Proof.
  intros Hf. induction l as [| x l IH]; simpl; [constructor |].
  destruct (f x) eqn:E.
  - apply Retained_keep; [now apply Hf | exact IH].
  - apply Retained_drop; [| exact IH].
    intros HP. apply Hf in HP. congruence.
Qed.

Lemma Subseq_refl {A : Type} (l : list A) : Subseq l l.
Proof. induction l; constructor; assumption. Qed.

Lemma Subseq_filter {A : Type} (f : A -> bool) (l : list A) :
  Subseq (filter f l) l.
Proof.
  induction l as [| x l IH]; simpl; [constructor |].
  destruct (f x); constructor; exact IH.
Qed.

Lemma Subseq_trans {A : Type} (l1 l2 l3 : list A) :
  Subseq l1 l2 -> Subseq l2 l3 -> Subseq l1 l3.
Proof.
  intros H12 H23. revert l1 H12.
  induction H23 as [| x l2 l3 H IH | x l2 l3 H IH]; intros l1 H12.
  - exact H12.
  - inversion H12; subst.
    + apply Subseq_keep. now apply IH.
    + apply Subseq_drop. now apply IH.
  - apply Subseq_drop. now apply IH.
Qed.

Lemma Subseq_map {A B : Type} (g : A -> B) (l' l : list A) :
  Subseq l' l -> Subseq (map g l') (map g l).
Proof. induction 1; simpl; constructor; assumption. Qed.

Lemma Subseq_length {A : Type} (l' l : list A) :
  Subseq l' l -> List.length l' <= List.length l.
Proof. induction 1; simpl; lia. Qed.

(** ** The exact-match filter *)

Section BuscaExataLemas.

Variable lower : string -> string.

(** The loop is a [filter]. *)
Lemma passo_filtro_fold (termos : list string) (produtos acc : list RawProduct) :
  fold_left (passo_filtro lower termos) produtos acc
  = acc ++ filter (fun p => todos_os_termos lower termos (titulo_de lower p)) produtos.
Proof.
  revert acc. induction produtos as [| p produtos IH]; intros acc; simpl.
  - now rewrite app_nil_r.
  - rewrite IH. unfold passo_filtro.
    destruct (todos_os_termos lower termos (titulo_de lower p)).
    + now rewrite <- app_assoc.
    + reflexivity.
Qed.

Lemma todos_os_termos_spec (termos : list string) (produto : RawProduct) :
  todos_os_termos lower termos (titulo_de lower produto) = true
  <-> TituloTemTermos lower termos produto.
Proof.
  unfold todos_os_termos, TituloTemTermos. rewrite forallb_forall.
  split; intros H termo Hin; apply str_in_spec; now apply H.
Qed.

Lemma processar_busca_exata_filter (produtos : list RawProduct) (query : string) :
  Str.findall_aspas query <> [] ->
  processar_busca_exata lower produtos query
  = filter (fun p => todos_os_termos lower (Str.findall_aspas query)
                                     (titulo_de lower p)) produtos.
Proof.
  intros H. unfold processar_busca_exata.
  destruct (Str.findall_aspas query) as [| t ts]; [congruence |].
  now rewrite passo_filtro_fold.
Qed.

Lemma processar_busca_exata_Subseq (produtos : list RawProduct) (query : string) :
  Subseq (processar_busca_exata lower produtos query) produtos.
Proof.
  destruct (Str.findall_aspas query) as [| t ts] eqn:E.
  - unfold processar_busca_exata. rewrite E. apply Subseq_refl.
  - rewrite processar_busca_exata_filter by congruence. apply Subseq_filter.
Qed.

End BuscaExataLemas.

(** C2. With at least one quoted term in the query, the exact-match filter
    returns the products whose lower-cased title contains the lower-cased
    form of every extracted term, in the order of the input and with nothing
    else; on the example of the specification the extracted terms are
    [dell] and [novo] and only the first of the three titles survives. *)
Theorem busca_exata_retem_titulos_com_termos :
  (forall (lower : string -> string) (produtos : list RawProduct) (query : string),
     TemTermoEntreAspas query ->
     Retained (TituloTemTermos lower (Str.findall_aspas query))
              produtos (processar_busca_exata lower produtos query)) /\
  Str.findall_aspas exemplo_query = ["dell"; "novo"] /\
  processar_busca_exata Str.ascii_lower exemplo_produtos exemplo_query
  = [produto_de_titulo "Notebook Dell Novo i5"].
Proof.
  split; [| split; reflexivity].
  intros lower produtos query H. apply tem_termo_findall in H.
  rewrite processar_busca_exata_filter by exact H.
  apply Retained_filter. intros p. apply todos_os_termos_spec.
Qed.

Lemma busca_exata_retem_titulos_com_termos_witness :
  TemTermoEntreAspas exemplo_query /\
  Retained (TituloTemTermos Str.ascii_lower (Str.findall_aspas exemplo_query))
           exemplo_produtos
           (processar_busca_exata Str.ascii_lower exemplo_produtos exemplo_query).
Proof.
  assert (H : TemTermoEntreAspas exemplo_query).
  { exists "notebook ", "dell", (" " ++ Str.quoted "novo")%string. reflexivity. }
  split; [exact H |].
  exact (proj1 busca_exata_retem_titulos_com_termos
               Str.ascii_lower exemplo_produtos exemplo_query H).
Defined.

(** C3. For a query with no term between double quotes the exact-match
    filter returns the list of products it was given. *)
Theorem busca_exata_identidade_sem_aspas :
  forall (lower : string -> string) (produtos : list RawProduct) (query : string),
    ~ TemTermoEntreAspas query ->
    processar_busca_exata lower produtos query = produtos.
Proof.
  intros lower produtos query H. unfold processar_busca_exata.
  destruct (Str.findall_aspas query) as [| t ts] eqn:E; [reflexivity |].
  exfalso. apply H. apply tem_termo_findall. congruence.
Qed.

Lemma busca_exata_identidade_sem_aspas_witness :
  ~ TemTermoEntreAspas "notebook dell" /\
  processar_busca_exata Str.ascii_lower exemplo_produtos "notebook dell"
  = exemplo_produtos.
Proof.
  assert (H : ~ TemTermoEntreAspas "notebook dell").
  { rewrite tem_termo_count. simpl. lia. }
  split; [exact H |].
  exact (busca_exata_identidade_sem_aspas Str.ascii_lower exemplo_produtos
           "notebook dell" H).
Defined.

(** C10. When the only quotes of the query are two adjacent ones, the
    extracted terms are the empty string alone, and the filter returns the
    list of products it was given: the empty string is in every title. *)
Theorem busca_exata_termo_vazio :
  forall (lower : string -> string) (produtos : list RawProduct) (u v : string),
    lower EmptyString = EmptyString ->
    Str.no_aspas u = true -> Str.no_aspas v = true ->
    Str.findall_aspas (u ++ Str.quoted EmptyString ++ v)%string = [EmptyString] /\
    processar_busca_exata lower produtos (u ++ Str.quoted EmptyString ++ v)%string
    = produtos.
Proof.
  intros lower produtos u v Hlower Hu Hv.
  assert (E : Str.findall_aspas (u ++ Str.quoted EmptyString ++ v)%string
              = [EmptyString]).
  { rewrite findall_aspas_quoted by (exact Hu || reflexivity).
    f_equal. apply findall_aspas_nil. apply no_aspas_count in Hv. lia. }
  split; [exact E |].
  rewrite processar_busca_exata_filter by (rewrite E; discriminate).
  rewrite E. apply forallb_filter_id. apply forallb_forall. intros p _.
  unfold todos_os_termos. simpl. now rewrite Hlower, str_in_empty.
Qed.

Lemma busca_exata_termo_vazio_witness :
  Str.findall_aspas ("tv " ++ Str.quoted EmptyString ++ " 4k")%string
  = [EmptyString] /\
  processar_busca_exata Str.ascii_lower exemplo_produtos
    ("tv " ++ Str.quoted EmptyString ++ " 4k")%string = exemplo_produtos.
Proof.
  apply (busca_exata_termo_vazio Str.ascii_lower exemplo_produtos "tv " " 4k");
    reflexivity.
Defined.

(** ** The widgets' filters *)

Lemma filtrar_frete_Subseq (filtro_frete : bool) (df : list DisplayRecord) :
  Subseq (filtrar_frete filtro_frete df) df.
Proof.
  unfold filtrar_frete. destruct filtro_frete;
    [apply Subseq_filter | apply Subseq_refl].
Qed.

Lemma filtrar_condicao_Subseq (condicao : list string) (df : list DisplayRecord) :
  Subseq (filtrar_condicao condicao df) df.
Proof.
  unfold filtrar_condicao. destruct condicao;
    [apply Subseq_refl | apply Subseq_filter].
Qed.

Lemma filtrar_Subseq (filtro_frete : bool) (condicao : list string)
    (todos_produtos : list RawProduct) :
  Subseq (filtrar filtro_frete condicao todos_produtos)
         (map extrair_dados_produto todos_produtos).
Proof.
  unfold filtrar. eapply Subseq_trans;
    [apply filtrar_condicao_Subseq | apply filtrar_frete_Subseq].
Qed.

(** C6. Whatever the query, the free-shipping box and the selected
    conditions, the rows left after the three filters are rows of the
    fetched products with some removed, none added and none repeated, so
    they are at most as many as the products fetched; each filter alone
    only removes. *)
Theorem filtros_so_removem :
  forall (lower : string -> string) (busca : string) (filtro_frete : bool)
         (condicao : list string) (todos_produtos : list RawProduct),
    let exatos := processar_busca_exata lower todos_produtos busca in
    let df := map extrair_dados_produto exatos in
    Subseq exatos todos_produtos /\
    Subseq (filtrar_frete filtro_frete df) df /\
    Subseq (filtrar_condicao condicao (filtrar_frete filtro_frete df))
           (filtrar_frete filtro_frete df) /\
    Subseq (filtrar filtro_frete condicao exatos)
           (map extrair_dados_produto todos_produtos) /\
    List.length (filtrar filtro_frete condicao exatos)
    <= List.length todos_produtos.
Proof.
  intros lower busca filtro_frete condicao todos_produtos exatos df.
  assert (H1 : Subseq exatos todos_produtos)
    by apply processar_busca_exata_Subseq.
  assert (H4 : Subseq (filtrar filtro_frete condicao exatos)
                      (map extrair_dados_produto todos_produtos)).
  { eapply Subseq_trans; [apply filtrar_Subseq | now apply Subseq_map]. }
  repeat split.
  - exact H1.
  - apply filtrar_frete_Subseq.
  - apply filtrar_condicao_Subseq.
  - exact H4.
  - apply Subseq_length in H4. now rewrite length_map in H4.
Qed.

(** C1, as the code has it.  With nothing selected the condition filter is
    skipped: it returns the rows it was given, so the table shows every row
    that passed the other filters. *)
Theorem filtrar_condicao_selecao_vazia :
  forall (filtro_frete : bool) (df : list DisplayRecord)
         (todos_produtos : list RawProduct),
    filtrar_condicao [] df = df /\
    filtrar filtro_frete [] todos_produtos
    = filtrar_frete filtro_frete (map extrair_dados_produto todos_produtos).
Proof. intros filtro_frete df todos_produtos. split; reflexivity. Qed.

(** C1, as the specification has it, fails: one fetched product and nothing
    selected leave one row, not zero. *)
Lemma filtrar_condicao_selecao_vazia_nao_esvazia :
  filtrar false [] [produto_completo] = [extrair_dados_produto produto_completo] /\
  List.length (filtrar_condicao [] [extrair_dados_produto produto_completo]) <> 0.
Proof. split; [reflexivity | discriminate]. Qed.

(** ** The projection *)

(** C9. The row of a product depends on the product alone.  Its condition
    is [Novo] exactly when the product's is [new], and [Usado] otherwise;
    its free shipping is [Sim] exactly when [shipping.free_shipping] is
    true, and [Não] otherwise, so also without [shipping]; the sold count is
    the product's, or 0 without one; name, link and price are the
    product's, absent when the product has none. *)
Theorem extrair_dados_produto_campos :
  forall produto : RawProduct,
    let r := extrair_dados_produto produto in
    (Condicao r = "Novo" <-> condition produto = Some "new") /\
    (Condicao r = "Usado" <-> condition produto <> Some "new") /\
    (FreteGratis r = "Sim" <->
       exists s, shipping produto = Some s /\ free_shipping s = Some true) /\
    (FreteGratis r = "Não" <->
       ~ exists s, shipping produto = Some s /\ free_shipping s = Some true) /\
    (shipping produto = None -> FreteGratis r = "Não") /\
    (sold_quantity produto = None -> Vendidos r = 0%Z) /\
    (forall n, sold_quantity produto = Some n -> Vendidos r = n) /\
    Preco r = price produto /\
    (price produto = None -> Preco r = None) /\
    Nome r = title produto /\
    Link r = permalink produto.
Proof.
  intros produto r. subst r. unfold extrair_dados_produto. cbn [Condicao FreteGratis Vendidos Preco Nome Link].
  assert (Hc : condition_is_new produto = true <-> condition produto = Some "new").
  { unfold condition_is_new. destruct (condition produto) as [c |].
    - rewrite String.eqb_eq. split; [now intros -> | now intros [= ->]].
    - split; discriminate. }
  assert (Hf : truthy (get_free_shipping produto) = true <->
               exists s, shipping produto = Some s /\ free_shipping s = Some true).
  { unfold get_free_shipping. destruct (shipping produto) as [s |].
    - destruct (free_shipping s) as [[|] |] eqn:E; simpl; split;
        try discriminate; try (intros _; now exists s);
        intros [s' [[= <-] H]]; congruence.
    - simpl. split; [discriminate | intros [s [H _]]; discriminate]. }
  repeat split.
  - destruct (condition_is_new produto); [intros _; now apply Hc | discriminate].
  - intros H. apply Hc in H. now rewrite H.
  - destruct (condition_is_new produto); [discriminate |].
    intros _ H. apply Hc in H. discriminate.
  - intros H. destruct (condition_is_new produto); [| reflexivity].
    exfalso. apply H. now apply Hc.
  - destruct (truthy (get_free_shipping produto)); [intros _; now apply Hf | discriminate].
  - intros H. apply Hf in H. now rewrite H.
  - destruct (truthy (get_free_shipping produto)); [discriminate |].
    intros _ H. apply Hf in H. discriminate.
  - intros H. destruct (truthy (get_free_shipping produto)); [| reflexivity].
    exfalso. apply H. now apply Hf.
  - intros H. unfold get_free_shipping. now rewrite H.
  - intros H. now rewrite H.
  - intros n H. now rewrite H.
  - intros H. exact H.
Qed.

Lemma extrair_dados_produto_campos_witness :
  extrair_dados_produto produto_completo
  = {| Nome := Some "Notebook Dell"; Preco := Some 2500%Z;
       Link := Some "https://produto.mercadolivre.com.br/MLB-1";
       Condicao := "Novo"; FreteGratis := "Sim"; Vendidos := 7 |} /\
  FreteGratis (extrair_dados_produto produto_vazio) = "Não" /\
  Vendidos (extrair_dados_produto produto_vazio) = 0%Z /\
  Preco (extrair_dados_produto produto_vazio) = None.
Proof.
  destruct (extrair_dados_produto_campos produto_vazio)
    as (_ & _ & _ & _ & Hfrete & Hvendidos & _ & _ & Hpreco & _).
  split; [reflexivity |].
  split; [apply Hfrete; reflexivity |].
  split; [apply Hvendidos; reflexivity | apply Hpreco; reflexivity].
Defined.

(** ** The fetcher *)

Section BuscaLemas.

Variable rede : nat -> Request -> http_outcome.

(** What one call of the fetcher does, by the answer of the network. *)
Lemma buscar_produtos_ml_run (query : string) (offset limit : Z) (s : Sessao) :
  let url := {| req_q := query; req_offset := offset; req_limit := limit |} in
  buscar_produtos_ml rede query offset limit s =
  match rede (List.length (chamadas s)) url with
  | NoResponse motivo => (Ok [], apos_chamada s url [StError (ConnectionError motivo)])
  | Response status_code corpo =>
      if ((400 <=? status_code) && (status_code <? 600))%Z
      then (Ok [], apos_chamada s url [StError (HTTPError status_code)])
      else match corpo with
           | NotJson => (Ok [], apos_chamada s url [StError JSONDecodeError])
           | JsonObject (Some results) => (Ok results, apos_chamada s url [])
           | JsonObject None => (Ok [], apos_chamada s url [])
           end
  end.
Proof.
  intros url. unfold buscar_produtos_ml, try_except, bind, requests_get,
    raise_for_status, json_results, apos_chamada.
  fold url. destruct (rede (List.length (chamadas s)) url) as [motivo | st corpo].
  - reflexivity.
  - cbn [fst snd]. destruct ((400 <=? st) && (st <? 600))%Z.
    + reflexivity.
    + destruct corpo as [| [results |]]; cbn; rewrite ?app_nil_r; reflexivity.
Qed.

(** One call sends one request and returns a page: it never raises. *)
Lemma buscar_produtos_ml_total (query : string) (offset limit : Z) (s : Sessao) :
  exists pagina msgs,
    buscar_produtos_ml rede query offset limit s
    = (Ok pagina,
       apos_chamada s {| req_q := query; req_offset := offset; req_limit := limit |}
                    msgs).
Proof.
  rewrite buscar_produtos_ml_run.
  destruct (rede _ _) as [motivo | st corpo]; [now eexists _, _ |].
  destruct ((400 <=? st) && (st <? 600))%Z; [now eexists _, _ |].
  destruct corpo as [| [results |]]; now eexists _, _.
Qed.

Lemma buscar_produtos_ml_falha (query : string) (offset limit : Z) (s : Sessao)
    (e : request_exception) :
  let url := {| req_q := query; req_offset := offset; req_limit := limit |} in
  FalhaDePagina (rede (List.length (chamadas s)) url) e ->
  buscar_produtos_ml rede query offset limit s
  = (Ok [], apos_chamada s url [StError e]).
Proof.
  intros url H. rewrite buscar_produtos_ml_run. fold url.
  inversion H as [motivo Ho | st corpo Hst Ho]; subst.
  - reflexivity.
  - replace ((400 <=? st) && (st <? 600))%Z with true; [reflexivity |].
    symmetry. apply andb_true_iff. split; [apply Z.leb_le | apply Z.ltb_lt]; lia.
Qed.

(** The loop calls the fetcher once for each offset, in order, and returns
    the pages it got appended to what it had. *)
Lemma buscar_paginas_em_ordem (busca : string) (offsets : list Z) :
  forall (acc : list RawProduct) (s : Sessao),
  exists paginas s',
    PaginasEmOrdem rede busca offsets s paginas s' /\
    List.length paginas = List.length offsets /\
    buscar_paginas rede busca offsets acc s = (Ok (acc ++ List.concat paginas), s') /\
    chamadas s' = chamadas s ++
      map (fun offset => {| req_q := busca; req_offset := offset; req_limit := 50 |})
          offsets.
Proof.
  induction offsets as [| offset offsets IH]; intros acc s.
  - exists [], s. simpl. rewrite !app_nil_r. repeat split. constructor.
  - destruct (buscar_produtos_ml_total busca offset 50 s) as [pagina [msgs E]].
    destruct (IH (acc ++ pagina) (apos_chamada s
                {| req_q := busca; req_offset := offset; req_limit := 50 |} msgs))
      as [paginas [s' [HP [HL [HR HC]]]]].
    exists (pagina :: paginas), s'. repeat split.
    + econstructor; eassumption.
    + simpl. now rewrite HL.
    + cbn [buscar_paginas]. unfold bind. rewrite E, HR. simpl.
      now rewrite app_assoc.
    + rewrite HC. simpl. now rewrite <- app_assoc.
Qed.

(** When every answer is a success with fifty products, the loop adds fifty
    products for each offset and shows no message. *)
Lemma buscar_paginas_cheias (busca : string) (offsets : list Z) :
  forall (acc : list RawProduct) (s : Sessao),
    (forall k, k < List.length offsets ->
       exists status_code pagina,
         rede (List.length (chamadas s) + k)
              {| req_q := busca; req_offset := nth k offsets 0%Z; req_limit := 50 |}
         = Response status_code (JsonObject (Some pagina)) /\
         (200 <= status_code < 300)%Z /\ List.length pagina = 50) ->
    exists todos s',
      buscar_paginas rede busca offsets acc s = (Ok todos, s') /\
      List.length todos = List.length acc + 50 * List.length offsets /\
      tela s' = tela s.
Proof.
  induction offsets as [| offset offsets IH]; intros acc s H.
  - exists acc, s. simpl. repeat split. lia.
  - destruct (H 0) as [st [pagina [E [Hst Hlen]]]]; [simpl; lia |].
    rewrite Nat.add_0_r in E. cbn [nth] in E.
    set (url := {| req_q := busca; req_offset := offset; req_limit := 50 |}) in *.
    assert (E1 : buscar_produtos_ml rede busca offset 50 s
                 = (Ok pagina, apos_chamada s url [])).
    { rewrite buscar_produtos_ml_run. fold url. rewrite E.
      replace ((400 <=? st) && (st <? 600))%Z with false; [reflexivity |].
      symmetry. apply andb_false_iff. left. apply Z.leb_gt. lia. }
    destruct (IH (acc ++ pagina) (apos_chamada s url [])) as [todos [s' [HR [HL HT]]]].
    { intros k Hk. destruct (H (S k)) as [st' [pagina' [E' [Hst' Hlen']]]];
        [simpl; lia |].
      exists st', pagina'. repeat split; try assumption; try lia.
      cbn [nth] in E'. rewrite <- E'. f_equal.
      unfold apos_chamada. cbn [chamadas]. rewrite length_app. simpl. lia. }
    exists todos, s'. repeat split.
    + cbn [buscar_paginas]. unfold bind. now rewrite E1.
    + rewrite HL, length_app, Hlen. simpl. lia.
    + rewrite HT. unfold apos_chamada. cbn [tela]. now rewrite app_nil_r.
Qed.

End BuscaLemas.

Lemma main_chamadas (lower : string -> string) (argsort : list Z -> list nat)
    (rede : nat -> Request -> http_outcome) (busca ordem : string)
    (filtro_frete : bool) (condicao : list string) (s : Sessao) :
  busca <> EmptyString ->
  chamadas (snd (main lower argsort rede busca ordem filtro_frete condicao s))
  = chamadas s ++ pedidos busca.
Proof.
  intros Hb. destruct busca as [| c busca]; [congruence |].
  unfold main, buscar_todos, bind.
  destruct (buscar_paginas_em_ordem rede (String c busca) (py_range 0 500 50) [] s)
    as [paginas [s' [_ [_ [E HC]]]]].
  rewrite E. cbn [app].
  destruct (processar_busca_exata lower (List.concat paginas) (String c busca));
    exact HC.
Qed.

(** C7, as the code has it.  When the network gives no response, or a
    response with a status from 400 to 599, the fetcher shows one error
    message and returns the empty list without raising; the loop then goes
    on with the remaining offsets, keeping what it had; the search over the
    ten pages returns and never raises. *)
Theorem falha_de_pagina_nao_interrompe :
  forall rede : nat -> Request -> http_outcome,
    (forall (query : string) (offset limit : Z) (s : Sessao) (e : request_exception),
       let url := {| req_q := query; req_offset := offset; req_limit := limit |} in
       FalhaDePagina (rede (List.length (chamadas s)) url) e ->
       buscar_produtos_ml rede query offset limit s
       = (Ok [], apos_chamada s url [StError e])) /\
    (forall (busca : string) (offset : Z) (offsets : list Z)
            (acc : list RawProduct) (s : Sessao) (e : request_exception),
       let url := {| req_q := busca; req_offset := offset; req_limit := 50 |} in
       FalhaDePagina (rede (List.length (chamadas s)) url) e ->
       buscar_paginas rede busca (offset :: offsets) acc s
       = buscar_paginas rede busca offsets acc (apos_chamada s url [StError e])) /\
    (forall (busca : string) (s : Sessao),
       exists todos s', buscar_todos rede busca s = (Ok todos, s')).
Proof.
  intros rede. repeat split.
  - intros query offset limit s e url H. now apply buscar_produtos_ml_falha.
  - intros busca offset offsets acc s e url H. cbn [buscar_paginas]. unfold bind.
    rewrite (buscar_produtos_ml_falha rede busca offset 50 s e H).
    fold url. now rewrite app_nil_r.
  - intros busca s. unfold buscar_todos.
    destruct (buscar_paginas_em_ordem rede busca (py_range 0 500 50) [] s)
      as [paginas [s' [_ [_ [E _]]]]].
    eexists _, _. exact E.
Qed.

Lemma falha_de_pagina_nao_interrompe_witness :
  FalhaDePagina (rede_fora 0 {| req_q := "tv"; req_offset := 0; req_limit := 50 |})
                (ConnectionError "Connection refused") /\
  buscar_produtos_ml rede_fora "tv" 0 50 sessao_inicial
  = (Ok [], {| chamadas := [{| req_q := "tv"; req_offset := 0; req_limit := 50 |}];
               tela := [StError (ConnectionError "Connection refused")] |}).
Proof.
  assert (H : FalhaDePagina
                (rede_fora 0 {| req_q := "tv"; req_offset := 0; req_limit := 50 |})
                (ConnectionError "Connection refused")) by constructor.
  split; [exact H |].
  exact (proj1 (falha_de_pagina_nao_interrompe rede_fora)
               "tv" 0%Z 50%Z sessao_inicial _ H).
Defined.

(** C7, as the specification has it, fails for a response whose status is
    neither 2xx nor a client or server error: with status 300 and a body
    that has results, the fetcher returns the results and shows nothing. *)
Lemma resposta_300_nao_e_falha :
  ~ (200 <= 300 < 300)%Z /\
  buscar_produtos_ml rede_300 "tv" 0 50 sessao_inicial
  = (Ok [produto_completo],
     {| chamadas := [{| req_q := "tv"; req_offset := 0; req_limit := 50 |}];
        tela := [] |}).
Proof. split; [lia | reflexivity]. Qed.

(** C8. The search calls the fetcher once for each of the offsets 0, 50,
    ..., 450, in that order and with limit 50: ten requests, none repeated.
    It returns the ten pages appended in the order of the calls, nothing
    removed.  A non-empty query makes the page send exactly these ten
    requests.  When each of the ten answers is a success with fifty
    products, the search returns 500 products and shows no message. *)
Theorem busca_dez_paginas_em_ordem :
  (forall (rede : nat -> Request -> http_outcome) (busca : string) (s : Sessao),
     exists paginas s',
       PaginasEmOrdem rede busca [0; 50; 100; 150; 200; 250; 300; 350; 400; 450]%Z
                      s paginas s' /\
       List.length paginas = 10 /\
       buscar_todos rede busca s = (Ok (List.concat paginas), s') /\
       chamadas s' = chamadas s ++ pedidos busca) /\
  (forall (lower : string -> string) (argsort : list Z -> list nat)
          (rede : nat -> Request -> http_outcome) (busca ordem : string)
          (filtro_frete : bool) (condicao : list string) (s : Sessao),
     busca <> EmptyString ->
     chamadas (snd (main lower argsort rede busca ordem filtro_frete condicao s))
     = chamadas s ++ pedidos busca) /\
  (forall (rede : nat -> Request -> http_outcome) (busca : string) (s : Sessao),
     (forall k, k < 10 ->
        exists status_code pagina,
          rede (List.length (chamadas s) + k)
               {| req_q := busca; req_offset := 50 * Z.of_nat k; req_limit := 50 |}
          = Response status_code (JsonObject (Some pagina)) /\
          (200 <= status_code < 300)%Z /\ List.length pagina = 50) ->
     exists todos s',
       buscar_todos rede busca s = (Ok todos, s') /\
       List.length todos = 500 /\ tela s' = tela s).
Proof.
  split; [| split].
  - intros rede busca s.
    destruct (buscar_paginas_em_ordem rede busca (py_range 0 500 50) [] s)
      as [paginas [s' [HP [HL [E HC]]]]].
    exists paginas, s'. repeat split; assumption.
  - intros lower argsort rede busca ordem filtro_frete condicao s Hb.
    exact (main_chamadas lower argsort rede busca ordem filtro_frete
             condicao s Hb).
  - intros rede busca s H.
    destruct (buscar_paginas_cheias rede busca (py_range 0 500 50) [] s)
      as [todos [s' [E [HL HT]]]].
    + intros k Hk. change (List.length (py_range 0 500 50)) with 10 in Hk.
      destruct (H k Hk) as [st [pagina [E G]]].
      exists st, pagina. split; [| exact G]. rewrite <- E. do 2 f_equal.
      do 10 (destruct k as [| k]; [reflexivity |]). lia.
    + exists todos, s'. repeat split; assumption.
Qed.

Lemma busca_dez_paginas_em_ordem_witness :
  (exists todos s',
     buscar_todos rede_cheia "notebook" sessao_inicial = (Ok todos, s') /\
     List.length todos = 500 /\ tela s' = []) /\
  chamadas (snd (main Str.ascii_lower argsort_merge rede_cheia "notebook"
                      "Menor para maior" false [] sessao_inicial))
  = pedidos "notebook".
Proof.
  destruct busca_dez_paginas_em_ordem as [_ [Hmain Hcheias]].
  split.
  - apply (Hcheias rede_cheia "notebook" sessao_inicial).
    intros k _. exists 200%Z, (repeat produto_completo 50).
    repeat split; try reflexivity; lia.
  - apply (Hmain Str.ascii_lower argsort_merge rede_cheia "notebook"
                 "Menor para maior" false [] sessao_inicial).
    discriminate.
Defined.

(** ** Sorting by price *)

Section OrdenacaoUnica.

Variable A : Type.
Variable key : A -> Z.

Lemma key_injective_NoDup (l : list A) (a b : A) :
  NoDup (map key l) -> In a l -> In b l -> key a = key b -> a = b.
Proof.
  induction l as [| x l IH]; simpl; intros Hnd Ha Hb E; [contradiction |].
  inversion Hnd as [| k ks Hnotin Hnd']; subst.
  destruct Ha as [-> | Ha], Hb as [-> | Hb].
  - reflexivity.
  - exfalso. apply Hnotin. rewrite E. now apply in_map.
  - exfalso. apply Hnotin. rewrite <- E. now apply in_map.
  - now apply IH.
Qed.

Lemma Sorted_head_le (a : A) (l : list A) (b : A) :
  Sorted Z.le (map key (a :: l)) -> In b (a :: l) -> (key a <= key b)%Z.
Proof.
  intros HS Hb. simpl in HS.
  apply Sorted_StronglySorted in HS; [| exact Z.le_trans].
  apply StronglySorted_inv in HS as [_ HF].
  destruct Hb as [-> | Hb]; [lia |].
  rewrite Forall_forall in HF. apply HF. now apply in_map.
Qed.

(** Two orders of the same rows, both sorted on keys that are all
    different, are the same order. *)
Lemma sorted_perm_unique (l1 l2 : list A) :
  Permutation l1 l2 -> NoDup (map key l1) ->
  Sorted Z.le (map key l1) -> Sorted Z.le (map key l2) -> l1 = l2.
Proof.
  revert l2. induction l1 as [| a l1 IH]; intros l2 HP Hnd H1 H2.
  - symmetry. now apply Permutation_nil.
  - destruct l2 as [| b l2].
    + symmetry in HP. now apply Permutation_nil in HP.
    + assert (Hb : In b (a :: l1)).
      { apply Permutation_in with (b :: l2); [now symmetry | now left]. }
      assert (Ha : In a (b :: l2)).
      { apply Permutation_in with (a :: l1); [exact HP | now left]. }
      assert (E : a = b).
      { apply (key_injective_NoDup (a :: l1)); [exact Hnd | now left | exact Hb |].
        pose proof (Sorted_head_le a l1 b H1 Hb).
        pose proof (Sorted_head_le b l2 a H2 Ha). lia. }
      subst b. f_equal. apply IH.
      * now apply Permutation_cons_inv with a.
      * now inversion Hnd.
      * simpl in H1. now apply Sorted_inv in H1.
      * simpl in H2. now apply Sorted_inv in H2.
Qed.

End OrdenacaoUnica.

Lemma map_nth_seq {A : Type} (l : list A) (d : A) :
  map (fun i => nth i l d) (seq 0 (List.length l)) = l.
Proof.
  induction l as [| x l IH]; simpl; [reflexivity |].
  f_equal. rewrite <- seq_shift, map_map. exact IH.
Qed.

Lemma take_as_map (df : list DisplayRecord) (d : DisplayRecord) (p : list nat) :
  Forall (fun i => i < List.length df) p ->
  take df p = map (fun i => nth i df d) p.
Proof.
  induction p as [| i p IH]; intros H; [reflexivity |].
  inversion H as [| ? ? Hi Hp]; subst. unfold take in *. simpl.
  rewrite (nth_error_nth' df d Hi). simpl. now rewrite IH.
Qed.

Lemma perm_seq_bound (p : list nat) (n : nat) :
  Permutation p (seq 0 n) -> Forall (fun i => i < n) p.
Proof.
  intros HP. apply Forall_forall. intros i Hi.
  apply (Permutation_in _ HP) in Hi. apply in_seq in Hi. lia.
Qed.

(** Taking every position once gives the same rows in another order. *)
Lemma take_perm (df : list DisplayRecord) (p : list nat) :
  Permutation p (seq 0 (List.length df)) -> Permutation (take df p) df.
Proof.
  intros HP. destruct df as [| d df'] eqn:E.
  - simpl in HP. apply Permutation_sym, Permutation_nil in HP. now subst p.
  - rewrite <- E in *. rewrite (take_as_map df d) by now apply perm_seq_bound.
    eapply Permutation_trans; [apply Permutation_map; exact HP |].
    now rewrite map_nth_seq.
Qed.

Lemma take_chave (df : list DisplayRecord) (p : list nat) :
  Forall (fun i => i < List.length df) p ->
  map chave (take df p) = map (fun i => nth i (map chave df) 0%Z) p.
Proof.
  intros H. destruct df as [| d df'] eqn:E.
  - destruct p as [| i p]; [reflexivity |].
    inversion H; subst. simpl in *. lia.
  - rewrite <- E in *. rewrite (take_as_map df d) by exact H.
    rewrite map_map. apply map_ext_in. intros i Hi.
    rewrite Forall_forall in H. specialize (H i Hi).
    rewrite (nth_indep _ 0%Z (chave d)) by now rewrite length_map.
    now rewrite map_nth.
Qed.

Lemma rev_take (df : list DisplayRecord) (p : list nat) :
  rev (take df p) = take df (rev p).
Proof.
  unfold take. induction p as [| i p IH]; [reflexivity |].
  simpl. rewrite flat_map_app, rev_app_distr, IH. simpl.
  rewrite app_nil_r. now destruct (nth_error df i).
Qed.

(** The merge sort on the keys meets what is assumed of [argsort]. *)
Lemma combine_seq_nth (ks : list Z) :
  forall (a i : nat) (k : Z),
    In (i, k) (combine (seq a (List.length ks)) ks) ->
    a <= i /\ nth (i - a) ks 0%Z = k.
Proof.
  induction ks as [| k0 ks IH]; intros a i k H; simpl in H; [contradiction |].
  destruct H as [[= <- <-] | H].
  - rewrite Nat.sub_diag. split; [lia | reflexivity].
  - apply IH in H as [Hle Hn]. split; [lia |].
    replace (i - a) with (S (i - S a)) by lia. exact Hn.
Qed.

Lemma map_fst_combine_seq (ks : list Z) (a : nat) :
  map fst (combine (seq a (List.length ks)) ks) = seq a (List.length ks).
Proof.
  revert a. induction ks as [| k ks IH]; intros a; simpl; [reflexivity |].
  now rewrite IH.
Qed.

Lemma Sorted_leb_snd (s : list (nat * Z)) :
  Sorted (fun a b => is_true (ChaveOrder.leb a b)) s -> Sorted Z.le (map snd s).
Proof.
  induction 1 as [| a s HS IH HR]; simpl; constructor; [exact IH |].
  destruct HR as [| b s' Hab]; simpl; constructor.
  unfold ChaveOrder.leb in Hab. now apply Z.leb_le.
Qed.

Lemma argsort_merge_ok : argsort_ok argsort_merge.
Proof.
  intros ks. unfold argsort_merge.
  set (pares := combine (seq 0 (List.length ks)) ks).
  assert (HP : Permutation pares (OrdenaChave.sort pares))
    by apply OrdenaChave.Permuted_sort.
  split.
  - rewrite <- (map_fst_combine_seq ks 0). fold pares.
    apply Permutation_map. now symmetry.
  - rewrite map_map.
    rewrite (map_ext_in _ snd).
    + apply Sorted_leb_snd. apply OrdenaChave.Sorted_sort.
    + intros [i k] Hin. simpl.
      apply Permutation_sym in HP. apply (Permutation_in _ HP) in Hin.
      apply combine_seq_nth in Hin as [_ Hn]. now rewrite Nat.sub_0_r in Hn.
Qed.

(** A column without missing cells. *)
Lemma precos_presentes (df : list DisplayRecord) :
  Forall (fun r => Preco r <> None) df -> map Preco df = map Some (map chave df).
Proof.
  induction 1 as [| r df Hr _ IH]; simpl; [reflexivity |].
  rewrite IH. f_equal. unfold chave. destruct (Preco r); congruence.
Qed.

Lemma valores_map_Some (ks : list Z) : valores (map Some ks) = ks.
Proof.
  unfold valores. induction ks as [| k ks IH]; simpl; [reflexivity |].
  now rewrite IH.
Qed.

Lemma bool_index_presentes {A : Type} (ks : list Z) :
  forall idx : list A, List.length idx = List.length ks ->
    bool_index idx (map negb (map isna (map Some ks))) = idx.
Proof.
  unfold bool_index. induction ks as [| k ks IH]; intros [| i idx] H;
    simpl in *; try reflexivity; try discriminate.
  rewrite IH by lia. reflexivity.
Qed.

Lemma bool_index_ausentes {A : Type} (ks : list Z) :
  forall idx : list A, bool_index idx (map isna (map Some ks)) = [].
Proof.
  unfold bool_index. induction ks as [| k ks IH]; intros [| i idx];
    simpl; try reflexivity. apply IH.
Qed.

Lemma nth_rev_seq (n j : nat) :
  j < n -> nth j (rev (seq 0 n)) 0 = n - S j.
Proof.
  intros H. rewrite rev_nth by (rewrite length_seq; exact H).
  rewrite length_seq. rewrite seq_nth by lia. reflexivity.
Qed.

Section OrdenacaoLemas.

Variable argsort : list Z -> list nat.
Hypothesis argsort_contract : argsort_ok argsort.

Lemma nargsort_asc_presentes (ks : list Z) :
  nargsort argsort true (map Some ks) = argsort ks.
Proof.
  unfold nargsort. rewrite valores_map_Some, bool_index_ausentes, app_nil_r.
  rewrite bool_index_presentes by now rewrite length_seq, !length_map.
  rewrite length_map.
  destruct (argsort_contract ks) as [HP _].
  rewrite (map_ext_in _ (fun j => j)); [apply map_id |].
  intros j Hj. apply (Permutation_in _ HP) in Hj. apply in_seq in Hj.
  rewrite seq_nth by lia. reflexivity.
Qed.

Lemma nargsort_desc_presentes (ks : list Z) :
  nargsort argsort false (map Some ks)
  = rev (map (fun j => List.length ks - S j) (argsort (rev ks))).
Proof.
  unfold nargsort. rewrite valores_map_Some, bool_index_ausentes, app_nil_r.
  rewrite bool_index_presentes by now rewrite length_seq, !length_map.
  rewrite length_map. f_equal.
  destruct (argsort_contract (rev ks)) as [HP _]. rewrite length_rev in HP.
  apply map_ext_in. intros j Hj.
  apply (Permutation_in _ HP) in Hj. apply in_seq in Hj.
  apply nth_rev_seq. lia.
Qed.

(** The positions of the descending order, read backwards, are every
    position once, and sort the keys. *)
Lemma desc_positions (ks : list Z) :
  let p := map (fun j => List.length ks - S j) (argsort (rev ks)) in
  Permutation p (seq 0 (List.length ks)) /\
  Sorted Z.le (map (fun i => nth i ks 0%Z) p).
Proof.
  intros p. subst p.
  destruct (argsort_contract (rev ks)) as [HP HS]. rewrite length_rev in HP.
  set (n := List.length ks) in *. split.
  - apply Permutation_trans with (map (fun j => n - S j) (seq 0 n)).
    + now apply Permutation_map.
    + rewrite (map_ext_in _ (fun j => nth j (rev (seq 0 n)) 0)).
      * pose proof (map_nth_seq (rev (seq 0 n)) 0) as M.
        rewrite length_rev, length_seq in M. rewrite M.
        symmetry. apply Permutation_rev.
      * intros j Hj. apply in_seq in Hj. symmetry. apply nth_rev_seq. lia.
  - rewrite map_map.
    rewrite (map_ext_in _ (fun j => nth j (rev ks) 0%Z)); [exact HS |].
    intros j Hj. apply (Permutation_in _ HP) in Hj. apply in_seq in Hj.
    rewrite rev_nth by (fold n; lia). reflexivity.
Qed.

Lemma sort_values_reversed (df : list DisplayRecord) :
  Forall (fun r => Preco r <> None) df ->
  NoDup (map Preco df) ->
  sort_values argsort true df = rev (sort_values argsort false df).
Proof.
  intros Hpres Hnd. unfold sort_values.
  rewrite (precos_presentes df Hpres) in *.
  apply NoDup_map_inv in Hnd.
  rewrite nargsort_asc_presentes, nargsort_desc_presentes.
  rewrite rev_take, rev_involutive.
  set (ks := map chave df) in *.
  destruct (argsort_contract ks) as [HPa HSa].
  destruct (desc_positions ks) as [HPd HSd].
  assert (Hlen : List.length ks = List.length df) by apply length_map.
  assert (Pa : Permutation (take df (argsort ks)) df).
  { apply take_perm. rewrite <- Hlen. exact HPa. }
  assert (Pd : Permutation
                 (take df (map (fun j => List.length ks - S j) (argsort (rev ks))))
                 df).
  { apply take_perm. rewrite <- Hlen. exact HPd. }
  apply (sorted_perm_unique _ chave).
  - apply Permutation_trans with df; [exact Pa | now symmetry].
  - apply Permutation_NoDup with ks; [| exact Hnd].
    unfold ks. apply Permutation_map. now symmetry.
  - rewrite take_chave by (rewrite <- Hlen; now apply perm_seq_bound). exact HSa.
  - rewrite take_chave by (rewrite <- Hlen; now apply perm_seq_bound). exact HSd.
Qed.

End OrdenacaoLemas.

(** C5, as the code has it.  For an [argsort] that returns every position
    once in an order that sorts the keys, and rows that all have a price,
    the prices all different: the ascending order is the descending order
    read backwards, for [sort_values] and for the two choices of the select
    box. *)
Theorem ordens_inversas_precos_distintos :
  forall (argsort : list Z -> list nat) (df : list DisplayRecord),
    argsort_ok argsort ->
    Forall (fun r => Preco r <> None) df ->
    NoDup (map Preco df) ->
    sort_values argsort true df = rev (sort_values argsort false df) /\
    ordenar argsort "Menor para maior" df
    = rev (ordenar argsort "Maior para menor" df).
Proof.
  intros argsort df Hok Hpres Hnd.
  assert (H : sort_values argsort true df = rev (sort_values argsort false df))
    by now apply sort_values_reversed.
  split; [exact H |]. unfold ordenar. simpl. exact H.
Qed.

Lemma ordens_inversas_precos_distintos_witness :
  sort_values argsort_merge true df_distintos
  = [linha (Some 10%Z); linha (Some 20%Z); linha (Some 30%Z)] /\
  sort_values argsort_merge true df_distintos
  = rev (sort_values argsort_merge false df_distintos).
Proof.
  split; [reflexivity |].
  apply (ordens_inversas_precos_distintos argsort_merge df_distintos).
  - exact argsort_merge_ok.
  - repeat constructor; discriminate.
  - repeat constructor; simpl; intuition discriminate.
Defined.

(** With one price present and one missing, the order does not depend on
    the algorithm of [argsort]: it has one key to sort. *)
Lemma sort_values_um_preco (argsort : list Z -> list nat) (ascending : bool) :
  argsort_ok argsort ->
  sort_values argsort ascending df_sem_preco = df_sem_preco.
Proof.
  intros Hok. destruct (Hok [2500%Z]) as [HP _]. simpl in HP.
  apply Permutation_sym, Permutation_length_1_inv in HP.
  unfold sort_values, nargsort. destruct ascending; cbn; rewrite HP; reflexivity.
Qed.

(** C5, as the specification has it, fails when a price is missing: the
    prices of the two rows are different, and both orders put the row
    without a price last. *)
Lemma ordens_nao_inversas_com_preco_ausente :
  argsort_ok argsort_merge /\
  NoDup (map Preco df_sem_preco) /\
  map Preco (sort_values argsort_merge true df_sem_preco) = [Some 2500%Z; None] /\
  map Preco (sort_values argsort_merge false df_sem_preco) = [Some 2500%Z; None] /\
  sort_values argsort_merge true df_sem_preco
  <> rev (sort_values argsort_merge false df_sem_preco).
Proof.
  split; [exact argsort_merge_ok |].
  split; [repeat constructor; simpl; intuition discriminate |].
  split; [reflexivity |]. split; [reflexivity |].
  vm_compute. discriminate.
Qed.

(** * Further properties of the code *)

(** ** The scan for quoted terms *)

Lemma no_aspas_app (a b : string) :
  Str.no_aspas (a ++ b)%string = Str.no_aspas a && Str.no_aspas b.
Proof.
  induction a as [| c a IH]; simpl; [reflexivity |].
  now rewrite IH, andb_assoc.
Qed.

Lemma findall_scan_sem_aspas (q : string) :
  Forall (fun t => Str.no_aspas t = true) (Str.findall_scan None q) /\
  (forall buf, Str.no_aspas buf = true ->
     Forall (fun t => Str.no_aspas t = true) (Str.findall_scan (Some buf) q)).
Proof.
  induction q as [| c q [IHn IHs]]; simpl.
  - split; [constructor | intros; constructor].
  - destruct (Str.is_aspas c) eqn:Hc; split.
    + now apply IHs.
    + intros buf Hb. constructor; assumption.
    + exact IHn.
    + intros buf Hb. apply IHs. rewrite no_aspas_app, Hb. simpl. now rewrite Hc.
Qed.

(** No extracted term contains a double quote. *)
Theorem findall_aspas_termos_sem_aspas :
  forall query : string,
    Forall (fun termo => Str.no_aspas termo = true) (Str.findall_aspas query).
Proof. intros query. apply findall_scan_sem_aspas. Qed.

Lemma findall_scan_length (q : string) :
  List.length (Str.findall_scan None q) = count_aspas q / 2 /\
  (forall buf, List.length (Str.findall_scan (Some buf) q) = (count_aspas q + 1) / 2).
Proof.
  induction q as [| c q [IHn IHs]]; cbn [Str.findall_scan count_aspas].
  - split; [reflexivity | intros; reflexivity].
  - destruct (Str.is_aspas c); split.
    + rewrite (IHs EmptyString).
      now replace (1 + count_aspas q) with (count_aspas q + 1) by lia.
    + intros buf. cbn [List.length]. rewrite IHn.
      replace (1 + count_aspas q + 1) with (count_aspas q + 1 * 2) by lia.
      rewrite Nat.div_add by lia. lia.
    + exact IHn.
    + intros buf. apply IHs.
Qed.

(** The quotes are paired from the left: a query with [n] double quotes has
    [n / 2] extracted terms, so a last quote without a partner opens no
    term. *)
Theorem findall_aspas_length :
  forall query : string,
    List.length (Str.findall_aspas query) = count_aspas query / 2.
Proof. intros query. apply findall_scan_length. Qed.

(** The terms written between quotes are the terms extracted, in order: for
    a query made of texts without quotes, each followed by a quoted term
    without quotes, and a tail with at most one quote. *)
Theorem findall_aspas_montar_query :
  forall (partes : list (string * string)) (fim : string),
    Forall (fun p => Str.no_aspas (fst p) = true /\ Str.no_aspas (snd p) = true)
           partes ->
    count_aspas fim <= 1 ->
    Str.findall_aspas (montar_query partes fim) = map snd partes.
Proof.
  intros partes fim H Hfim.
  induction H as [| [u t] partes [Hu Ht] _ IH]; cbn [montar_query map snd].
  - now apply findall_aspas_nil.
  - cbn [fst snd] in Hu, Ht.
    rewrite findall_aspas_quoted by assumption. now rewrite IH.
Qed.

Lemma findall_aspas_montar_query_witness :
  Str.findall_aspas (montar_query [("tv ", "lg"); (" ", "4k")]
                                  (String Str.aspas "oled"))
  = ["lg"; "4k"].
Proof.
  apply (findall_aspas_montar_query [("tv ", "lg"); (" ", "4k")]
                                    (String Str.aspas "oled")).
  - repeat constructor.
  - simpl. lia.
Defined.

(** ** The exact-match filter, continued *)

Lemma filter_idem {A : Type} (f : A -> bool) (l : list A) :
  filter f (filter f l) = filter f l.
Proof.
  induction l as [| x l IH]; simpl; [reflexivity |].
  destruct (f x) eqn:E; simpl; [rewrite E, IH |]; now try rewrite IH.
Qed.

(** Filtering the pages one by one and filtering them once appended give
    the same products. *)
Theorem processar_busca_exata_app :
  forall (lower : string -> string) (a b : list RawProduct) (query : string),
    processar_busca_exata lower (a ++ b) query
    = processar_busca_exata lower a query ++ processar_busca_exata lower b query.
Proof.
  intros lower a b query.
  destruct (Str.findall_aspas query) as [| t ts] eqn:E.
  - unfold processar_busca_exata. now rewrite E.
  - rewrite !processar_busca_exata_filter by congruence. apply filter_app.
Qed.

(** Filtering twice with the same query changes nothing more. *)
Theorem processar_busca_exata_idem :
  forall (lower : string -> string) (produtos : list RawProduct) (query : string),
    processar_busca_exata lower (processar_busca_exata lower produtos query) query
    = processar_busca_exata lower produtos query.
Proof.
  intros lower produtos query.
  destruct (Str.findall_aspas query) as [| t ts] eqn:E.
  - unfold processar_busca_exata. now rewrite E.
  - rewrite !processar_busca_exata_filter by congruence. apply filter_idem.
Qed.

Lemma todos_os_termos_map (lower : string -> string) (termos : list string)
    (titulo : string) :
  todos_os_termos lower termos titulo
  = forallb (fun t => Str.str_in t titulo) (map lower termos).
Proof.
  unfold todos_os_termos. induction termos as [| t ts IH]; simpl;
    [reflexivity | now rewrite IH].
Qed.

(** The case of the letters of the quoted terms does not matter: two queries
    whose extracted terms have the same lower-case forms keep the same
    products. *)
Theorem processar_busca_exata_caixa :
  forall (lower : string -> string) (produtos : list RawProduct)
         (query1 query2 : string),
    map lower (Str.findall_aspas query1) = map lower (Str.findall_aspas query2) ->
    processar_busca_exata lower produtos query1
    = processar_busca_exata lower produtos query2.
Proof.
  intros lower produtos query1 query2 H.
  destruct (Str.findall_aspas query1) as [| t1 ts1] eqn:E1;
    destruct (Str.findall_aspas query2) as [| t2 ts2] eqn:E2;
    try discriminate.
  - unfold processar_busca_exata. now rewrite E1, E2.
  - rewrite !processar_busca_exata_filter by congruence. rewrite E1, E2.
    apply filter_ext. intros p. now rewrite !todos_os_termos_map, H.
Qed.

Lemma processar_busca_exata_caixa_witness :
  processar_busca_exata Str.ascii_lower exemplo_produtos
    ("notebook " ++ Str.quoted "DELL" ++ " " ++ Str.quoted "Novo")%string
  = processar_busca_exata Str.ascii_lower exemplo_produtos exemplo_query.
Proof.
  apply (processar_busca_exata_caixa Str.ascii_lower exemplo_produtos).
  reflexivity.
Defined.

Lemma str_in_EmptyString (t : string) :
  Str.str_in t EmptyString = true -> t = EmptyString.
Proof. destruct t; [reflexivity | discriminate]. Qed.

(** A product without a title is read as having the empty title: as soon as
    one extracted term is not empty in lower case, the product is dropped. *)
Theorem processar_busca_exata_sem_titulo :
  forall (lower : string -> string) (produtos : list RawProduct) (query : string)
         (produto : RawProduct) (termo : string),
    lower EmptyString = EmptyString ->
    In termo (Str.findall_aspas query) ->
    lower termo <> EmptyString ->
    title produto = None ->
    ~ In produto (processar_busca_exata lower produtos query).
Proof.
  intros lower produtos query produto termo Hl Hin Hne Ht Hp.
  rewrite processar_busca_exata_filter in Hp
    by (intros E; rewrite E in Hin; contradiction).
  apply filter_In in Hp as [_ Hp].
  apply todos_os_termos_spec in Hp. specialize (Hp termo Hin).
  apply str_in_spec in Hp. unfold titulo_de in Hp. rewrite Ht, Hl in Hp.
  apply Hne. now apply str_in_EmptyString.
Qed.

Lemma processar_busca_exata_sem_titulo_witness :
  ~ In produto_vazio
       (processar_busca_exata Str.ascii_lower (produto_vazio :: exemplo_produtos)
                              exemplo_query).
Proof.
  apply (processar_busca_exata_sem_titulo Str.ascii_lower
           (produto_vazio :: exemplo_produtos) exemplo_query produto_vazio "dell").
  - reflexivity.
  - simpl. now left.
  - discriminate.
  - reflexivity.
Defined.

(** ** The widgets' filters, continued *)

Lemma filter_comm {A : Type} (f g : A -> bool) (l : list A) :
  filter f (filter g l) = filter g (filter f l).
Proof.
  induction l as [| x l IH]; simpl; [reflexivity |].
  destruct (f x) eqn:Ef, (g x) eqn:Eg; simpl; rewrite ?Ef, ?Eg, IH; reflexivity.
Qed.

Lemma filter_length_split {A : Type} (f g : A -> bool) (l : list A) :
  Forall (fun x => g x = negb (f x)) l ->
  List.length (filter f l) + List.length (filter g l) = List.length l.
Proof.
  induction 1 as [| x l Hx _ IH]; simpl; [reflexivity |].
  rewrite Hx. destruct (f x); simpl; lia.
Qed.

(** A row of the table is the row of a fetched product that has free
    shipping when the box is ticked and whose condition is one of the
    selected ones when some are selected; every such product has its row. *)
Theorem filtrar_In :
  forall (filtro_frete : bool) (condicao : list string)
         (todos_produtos : list RawProduct) (r : DisplayRecord),
    In r (filtrar filtro_frete condicao todos_produtos) <->
    exists p, In p todos_produtos /\ r = extrair_dados_produto p /\
      (filtro_frete = true -> get_free_shipping p = Some true) /\
      (condicao <> [] ->
         In (if condition_is_new p then "Novo" else "Usado") condicao).
Proof.
  intros filtro_frete condicao todos_produtos r.
  assert (Hisin : forall c x, isin c x = true <-> In x c).
  { intros c x. unfold isin. rewrite existsb_exists. split.
    - intros [y [Hy E]]. apply String.eqb_eq in E. now subst.
    - intros H. exists x. split; [exact H | apply String.eqb_refl]. }
  assert (Hfrete : forall p,
             String.eqb (FreteGratis (extrair_dados_produto p)) "Sim" = true
             <-> get_free_shipping p = Some true).
  { intros p. simpl. destruct (get_free_shipping p) as [[|] |]; simpl;
      split; intros H; congruence. }
  unfold filtrar, filtrar_frete, filtrar_condicao. split.
  - intros H.
    assert (H1 : In r (map extrair_dados_produto todos_produtos) /\
                 (filtro_frete = true -> String.eqb (FreteGratis r) "Sim" = true) /\
                 (condicao <> [] -> In (Condicao r) condicao)).
    { destruct condicao as [| c cs]; destruct filtro_frete;
        repeat (apply filter_In in H as [H ?]);
        repeat split; try assumption; try congruence;
        intros _; now apply Hisin. }
    destruct H1 as [Hin [Hf Hc]]. apply in_map_iff in Hin as [p [<- Hp]].
    exists p. repeat split; try assumption.
    intros Ht. now apply Hfrete, Hf.
  - intros [p [Hp [-> [Hf Hc]]]].
    assert (Hin : In (extrair_dados_produto p)
                     (map extrair_dados_produto todos_produtos)) by now apply in_map.
    assert (Hin' : In (extrair_dados_produto p)
                      (if filtro_frete
                       then filter (fun r => String.eqb (FreteGratis r) "Sim")
                                   (map extrair_dados_produto todos_produtos)
                       else map extrair_dados_produto todos_produtos)).
    { destruct filtro_frete; [| exact Hin].
      apply filter_In. split; [exact Hin | now apply Hfrete, Hf]. }
    destruct condicao as [| c cs]; [exact Hin' |].
    apply filter_In. split; [exact Hin' |].
    apply Hisin. apply Hc. discriminate.
Qed.

Lemma extrair_condicao_isin (produto : RawProduct) :
  isin ["Novo"; "Usado"] (Condicao (extrair_dados_produto produto)) = true /\
  isin ["Usado"] (Condicao (extrair_dados_produto produto))
  = negb (isin ["Novo"] (Condicao (extrair_dados_produto produto))).
Proof. simpl. destruct (condition_is_new produto); split; reflexivity. Qed.

Lemma filtrar_frete_linhas (filtro_frete : bool) (todos_produtos : list RawProduct)
    (P : DisplayRecord -> Prop) :
  (forall p, P (extrair_dados_produto p)) ->
  Forall P (filtrar_frete filtro_frete (map extrair_dados_produto todos_produtos)).
Proof.
  intros HP. apply Forall_forall. intros r Hr.
  assert (H : In r (map extrair_dados_produto todos_produtos)).
  { unfold filtrar_frete in Hr. destruct filtro_frete; [| exact Hr].
    now apply filter_In in Hr. }
  apply in_map_iff in H as [p [<- _]]. apply HP.
Qed.

(** Selecting both conditions, the default of the widget, filters nothing:
    the table is the one of the empty selection. *)
Theorem filtrar_selecao_completa :
  forall (filtro_frete : bool) (todos_produtos : list RawProduct),
    filtrar filtro_frete ["Novo"; "Usado"] todos_produtos
    = filtrar filtro_frete [] todos_produtos.
Proof.
  intros filtro_frete todos_produtos. unfold filtrar, filtrar_condicao.
  apply forallb_filter_id. apply forallb_forall. apply Forall_forall.
  apply filtrar_frete_linhas. intros p. apply extrair_condicao_isin.
Qed.

(** Every row is in exactly one of the two selections of one condition. *)
Theorem filtrar_particao :
  forall (filtro_frete : bool) (todos_produtos : list RawProduct),
    List.length (filtrar filtro_frete ["Novo"] todos_produtos)
    + List.length (filtrar filtro_frete ["Usado"] todos_produtos)
    = List.length (filtrar filtro_frete [] todos_produtos).
Proof.
  intros filtro_frete todos_produtos. unfold filtrar, filtrar_condicao.
  apply filter_length_split.
  apply filtrar_frete_linhas. intros p. apply extrair_condicao_isin.
Qed.

(** The two filters can be applied in either order, and applying one of
    them twice changes nothing more. *)
Theorem filtros_comutam :
  forall (filtro_frete : bool) (condicao : list string) (df : list DisplayRecord),
    filtrar_frete filtro_frete (filtrar_condicao condicao df)
    = filtrar_condicao condicao (filtrar_frete filtro_frete df) /\
    filtrar_frete filtro_frete (filtrar_frete filtro_frete df)
    = filtrar_frete filtro_frete df /\
    filtrar_condicao condicao (filtrar_condicao condicao df)
    = filtrar_condicao condicao df.
Proof.
  intros filtro_frete condicao df. unfold filtrar_frete, filtrar_condicao.
  destruct filtro_frete, condicao as [| c cs]; repeat split;
    try reflexivity; try apply filter_comm; apply filter_idem.
Qed.

(** ** The fetcher, continued *)

Section BuscaRespostas.

Variable rede : nat -> Request -> http_outcome.

Lemma buscar_produtos_ml_resposta (query : string) (offset limit : Z) (s : Sessao) :
  let url := {| req_q := query; req_offset := offset; req_limit := limit |} in
  let o := rede (List.length (chamadas s)) url in
  buscar_produtos_ml rede query offset limit s
  = (Ok (produtos_da_resposta o), apos_chamada s url (mensagem_da_resposta o)).
Proof.
  intros url o. rewrite buscar_produtos_ml_run. fold url. fold o.
  unfold produtos_da_resposta, mensagem_da_resposta.
  destruct o as [motivo | st corpo]; [reflexivity |].
  destruct ((400 <=? st) && (st <? 600))%Z; [reflexivity |].
  destruct corpo as [| [results |]]; reflexivity.
Qed.

Lemma resposta_exclusiva (o : http_outcome) :
  List.length (mensagem_da_resposta o) <= 1 /\
  (produtos_da_resposta o = [] \/ mensagem_da_resposta o = []).
Proof.
  unfold produtos_da_resposta, mensagem_da_resposta.
  destruct o as [motivo | st corpo]; [simpl; auto |].
  destruct ((400 <=? st) && (st <? 600))%Z; [simpl; auto |].
  destruct corpo as [| [results |]]; simpl; auto.
Qed.

Lemma buscar_paginas_respostas (busca : string) (offsets : list Z) :
  forall (acc : list RawProduct) (s : Sessao),
    let rs := respostas rede busca (List.length (chamadas s)) offsets in
    buscar_paginas rede busca offsets acc s
    = (Ok (acc ++ flat_map produtos_da_resposta rs),
       {| chamadas := chamadas s ++
            map (fun offset =>
                   {| req_q := busca; req_offset := offset; req_limit := 50 |})
                offsets;
          tela := tela s ++ flat_map mensagem_da_resposta rs |}).
Proof.
  induction offsets as [| offset offsets IH]; intros acc s rs; subst rs.
  - simpl. rewrite !app_nil_r. unfold ret. now destruct s.
  - cbn [buscar_paginas]. unfold bind.
    rewrite buscar_produtos_ml_resposta. rewrite IH.
    unfold apos_chamada. cbn [chamadas tela respostas flat_map map].
    rewrite length_app. cbn [List.length]. rewrite Nat.add_1_r.
    now rewrite <- !app_assoc.
Qed.

End BuscaRespostas.

(** One call of the fetcher sends one request, returns a page without
    raising and shows at most one message; it never returns products
    together with a message. *)
Theorem buscar_produtos_ml_pagina_ou_mensagem :
  forall (rede : nat -> Request -> http_outcome) (query : string)
         (offset limit : Z) (s : Sessao),
  exists pagina msgs,
    buscar_produtos_ml rede query offset limit s
    = (Ok pagina,
       {| chamadas := chamadas s ++
            [{| req_q := query; req_offset := offset; req_limit := limit |}];
          tela := tela s ++ msgs |}) /\
    List.length msgs <= 1 /\ (pagina = [] \/ msgs = []).
Proof.
  intros rede query offset limit s.
  eexists _, _. split; [apply buscar_produtos_ml_resposta |].
  apply resposta_exclusiva.
Qed.

Lemma buscar_todos_run (rede : nat -> Request -> http_outcome) (busca : string)
    (s : Sessao) :
  buscar_todos rede busca s
  = (Ok (flat_map produtos_da_resposta
           (respostas rede busca (List.length (chamadas s)) (py_range 0 500 50))),
     {| chamadas := chamadas s ++ pedidos busca;
        tela := tela s ++
          flat_map mensagem_da_resposta
            (respostas rede busca (List.length (chamadas s)) (py_range 0 500 50)) |}).
Proof. unfold buscar_todos. now rewrite buscar_paginas_respostas. Qed.

(** The search is the ten answers of the network read in order: its
    products are the products of the answers, appended, and its messages the
    messages of the failed answers, after those already on the page. *)
Theorem buscar_todos_respostas :
  forall (rede : nat -> Request -> http_outcome) (busca : string) (s : Sessao),
    let rs := respostas rede busca (List.length (chamadas s))
                        [0; 50; 100; 150; 200; 250; 300; 350; 400; 450]%Z in
    buscar_todos rede busca s
    = (Ok (flat_map produtos_da_resposta rs),
       {| chamadas := chamadas s ++ pedidos busca;
          tela := tela s ++ flat_map mensagem_da_resposta rs |}).
Proof. intros rede busca s rs. apply buscar_todos_run. Qed.

Lemma respostas_Forall (rede : nat -> Request -> http_outcome) (busca : string)
    (P : http_outcome -> Prop) (offsets : list Z) :
  (forall n req, P (rede n req)) ->
  forall n, Forall P (respostas rede busca n offsets).
Proof.
  intros H. induction offsets as [| offset offsets IH]; intros n; simpl;
    constructor; [apply H | apply IH].
Qed.

Lemma respostas_length (rede : nat -> Request -> http_outcome) (busca : string)
    (offsets : list Z) (n : nat) :
  List.length (respostas rede busca n offsets) = List.length offsets.
Proof.
  revert n. induction offsets as [| offset offsets IH]; intros n; simpl;
    [reflexivity | now rewrite IH].
Qed.

Lemma resposta_de_falha (o : http_outcome) (e : request_exception) :
  FalhaDePagina o e ->
  mensagem_da_resposta o = [StError e] /\ produtos_da_resposta o = [].
Proof.
  intros He. inversion He as [motivo Ho | st corpo Hst Ho]; simpl.
  - now split.
  - replace ((400 <=? st) && (st <? 600))%Z with true; [now split |].
    symmetry. apply andb_true_iff. split; [apply Z.leb_le | apply Z.ltb_lt]; lia.
Qed.

Lemma resposta_de_sucesso (status_code : Z) (pagina : list RawProduct) :
  (200 <= status_code < 300)%Z ->
  mensagem_da_resposta (Response status_code (JsonObject (Some pagina))) = [] /\
  produtos_da_resposta (Response status_code (JsonObject (Some pagina))) = pagina.
Proof.
  intros Hst. simpl.
  replace ((400 <=? status_code) && (status_code <? 600))%Z with false;
    [now split |].
  symmetry. apply andb_false_iff. left. apply Z.leb_gt. lia.
Qed.

(** Counting over a list of answers that are failures or full pages. *)
Lemma contagem_respostas (rs : list http_outcome) :
  Forall (fun o =>
            (exists e, FalhaDePagina o e) \/
            (exists status_code pagina,
               o = Response status_code (JsonObject (Some pagina)) /\
               (200 <= status_code < 300)%Z /\ List.length pagina = 50)) rs ->
  Forall (fun m => exists e, m = StError e) (flat_map mensagem_da_resposta rs) /\
  List.length (flat_map produtos_da_resposta rs)
  + 50 * List.length (flat_map mensagem_da_resposta rs)
  = 50 * List.length rs.
Proof.
  induction 1 as [| o rs' Ho _ [IH1 IH2]].
  - split; [constructor | reflexivity].
  - cbn [flat_map]. rewrite !length_app. cbn [List.length].
    destruct Ho as [[e He] | [st [pagina [-> [Hst Hlen]]]]].
    + destruct (resposta_de_falha o e He) as [-> ->].
      split; [constructor; [now exists e | exact IH1] |].
      cbn [List.length app]. lia.
    + destruct (resposta_de_sucesso st pagina Hst) as [-> ->].
      split; [exact IH1 |]. cbn [List.length app]. lia.
Qed.

Lemma respostas_todas_falhas (rs : list http_outcome) :
  Forall (fun o => exists e, FalhaDePagina o e) rs ->
  flat_map produtos_da_resposta rs = [] /\
  Forall (fun m => exists e, m = StError e) (flat_map mensagem_da_resposta rs) /\
  List.length (flat_map mensagem_da_resposta rs) = List.length rs.
Proof.
  induction 1 as [| o rs' [e He] _ [IH1 [IH2 IH3]]].
  - repeat split. constructor.
  - cbn [flat_map]. destruct (resposta_de_falha o e He) as [-> ->].
    cbn [app List.length]. repeat split.
    + exact IH1.
    + constructor; [now exists e | exact IH2].
    + now rewrite IH3.
Qed.

(** When every answer is a failure or a success with fifty products, each
    failed page shows one error and costs fifty products: the products
    returned and fifty times the messages shown add up to 500. *)
Theorem buscar_todos_paginas_falhas :
  forall (rede : nat -> Request -> http_outcome) (busca : string) (s : Sessao),
    (forall n req,
       (exists e, FalhaDePagina (rede n req) e) \/
       (exists status_code pagina,
          rede n req = Response status_code (JsonObject (Some pagina)) /\
          (200 <= status_code < 300)%Z /\ List.length pagina = 50)) ->
    exists todos msgs,
      buscar_todos rede busca s
      = (Ok todos, {| chamadas := chamadas s ++ pedidos busca;
                      tela := tela s ++ msgs |}) /\
      Forall (fun m => exists e, m = StError e) msgs /\
      List.length todos + 50 * List.length msgs = 500.
Proof.
  intros rede busca s H. rewrite buscar_todos_run.
  set (rs := respostas rede busca _ _).
  exists (flat_map produtos_da_resposta rs), (flat_map mensagem_da_resposta rs).
  split; [reflexivity |].
  destruct (contagem_respostas rs) as [G1 G2].
  { apply respostas_Forall. exact H. }
  split; [exact G1 |]. rewrite G2. unfold rs. now rewrite respostas_length.
Qed.

Lemma buscar_todos_paginas_falhas_witness :
  exists todos msgs,
    buscar_todos rede_fora "tv" sessao_inicial
    = (Ok todos, {| chamadas := pedidos "tv"; tela := msgs |}) /\
    Forall (fun m => exists e, m = StError e) msgs /\
    List.length todos + 50 * List.length msgs = 500.
Proof.
  apply (buscar_todos_paginas_falhas rede_fora "tv" sessao_inicial).
  intros n req. left. eexists. constructor.
Defined.

(** When every request fails, a non-empty query makes the page send its ten
    requests, show ten errors and then the warning that no product was
    found, and show no table. *)
Theorem main_rede_fora :
  forall (lower : string -> string) (argsort : list Z -> list nat)
         (rede : nat -> Request -> http_outcome) (busca ordem : string)
         (filtro_frete : bool) (condicao : list string) (s : Sessao),
    busca <> EmptyString ->
    (forall n req, exists e, FalhaDePagina (rede n req) e) ->
    exists msgs,
      main lower argsort rede busca ordem filtro_frete condicao s
      = (Ok None, {| chamadas := chamadas s ++ pedidos busca;
                     tela := (tela s ++ msgs) ++ [StWarning] |}) /\
      List.length msgs = 10 /\
      Forall (fun m => exists e, m = StError e) msgs.
Proof.
  intros lower argsort rede busca ordem filtro_frete condicao s Hb H.
  set (rs := respostas rede busca (List.length (chamadas s)) (py_range 0 500 50)).
  destruct (respostas_todas_falhas rs) as [G1 [G2 G3]].
  { apply respostas_Forall. exact H. }
  exists (flat_map mensagem_da_resposta rs).
  split; [| split; [| exact G2]].
  - destruct busca as [| c busca]; [congruence |].
    unfold main, bind. rewrite buscar_todos_run. fold rs. rewrite G1.
    assert (P : processar_busca_exata lower [] (String c busca) = []).
    { pose proof (processar_busca_exata_Subseq lower [] (String c busca)) as S.
      inversion S. reflexivity. }
    rewrite P. reflexivity.
  - rewrite G3. unfold rs. now rewrite respostas_length.
Qed.

Lemma main_rede_fora_witness :
  exists msgs,
    main Str.ascii_lower argsort_merge rede_fora "tv" "Menor para maior"
         false [] sessao_inicial
    = (Ok None, {| chamadas := pedidos "tv"; tela := msgs ++ [StWarning] |}) /\
    List.length msgs = 10 /\
    Forall (fun m => exists e, m = StError e) msgs.
Proof.
  apply (main_rede_fora Str.ascii_lower argsort_merge rede_fora "tv"
           "Menor para maior" false [] sessao_inicial).
  - discriminate.
  - intros n req. eexists. constructor.
Defined.

Lemma respostas_no_limite (rede : nat -> Request -> http_outcome) (busca : string)
    (offsets : list Z) (n : nat) :
  PaginasNoLimite rede ->
  List.length (flat_map produtos_da_resposta (respostas rede busca n offsets))
  <= 50 * List.length offsets.
Proof.
  intros H.
  assert (HF : Forall (fun o => List.length (produtos_da_resposta o) <= 50)
                      (respostas rede busca n offsets)).
  { apply respostas_Forall. intros k req. unfold produtos_da_resposta.
    destruct (rede k req) as [motivo | st corpo] eqn:E; [simpl; lia |].
    destruct ((400 <=? st) && (st <? 600))%Z; [simpl; lia |].
    destruct corpo as [| [results |]]; simpl; try lia.
    now apply (H k req st results). }
  rewrite <- (respostas_length rede busca offsets n).
  induction HF as [| o rs' Ho _ IH]; [simpl; lia |].
  cbn [flat_map List.length]. rewrite length_app. lia.
Qed.

(** When no answer has more than fifty products, which is the limit asked
    for, the search returns at most 500 products. *)
Theorem buscar_todos_no_maximo_500 :
  forall (rede : nat -> Request -> http_outcome) (busca : string) (s : Sessao),
    (forall n req status_code results,
       rede n req = Response status_code (JsonObject (Some results)) ->
       List.length results <= 50) ->
    exists todos s',
      buscar_todos rede busca s = (Ok todos, s') /\ List.length todos <= 500.
Proof.
  intros rede busca s H. rewrite buscar_todos_run.
  eexists _, _. split; [reflexivity |].
  apply (respostas_no_limite rede busca (py_range 0 500 50)). exact H.
Qed.

Lemma buscar_todos_no_maximo_500_witness :
  exists todos s',
    buscar_todos rede_cheia "tv" sessao_inicial = (Ok todos, s') /\
    List.length todos <= 500.
Proof.
  apply (buscar_todos_no_maximo_500 rede_cheia "tv" sessao_inicial).
  intros n req st results E. injection E as _ <-.
  apply Nat.eq_le_incl. reflexivity.
Defined.

(** ** Sorting by price, with missing prices *)

Lemma in_bool_index {A : Type} (xs : list A) (mask : list bool) (x : A) :
  In x (bool_index xs mask) -> In x xs.
Proof.
  unfold bool_index. intros H. apply in_map_iff in H as [[y b] [<- H]].
  apply filter_In in H as [H _]. now apply in_combine_l in H.
Qed.

Lemma bool_index_map {A B : Type} (g : A -> B) (xs : list A) (mask : list bool) :
  map g (bool_index xs mask) = bool_index (map g xs) mask.
Proof.
  unfold bool_index. revert mask.
  induction xs as [| x xs IH]; intros [| b mask]; simpl; try reflexivity.
  destruct b; simpl; now rewrite IH.
Qed.

Lemma bool_index_filter {A : Type} (f : A -> bool) (xs : list A) :
  bool_index xs (map f xs) = filter f xs.
Proof.
  unfold bool_index. induction xs as [| x xs IH]; simpl; [reflexivity |].
  destruct (f x); simpl; now rewrite IH.
Qed.

Lemma take_bool_index (df : list DisplayRecord) (mask : list bool) :
  take df (bool_index (seq 0 (List.length df)) mask) = bool_index df mask.
Proof.
  destruct df as [| d df'] eqn:E; [now destruct mask |]. rewrite <- E.
  rewrite (take_as_map df d).
  - now rewrite bool_index_map, map_nth_seq.
  - apply Forall_forall. intros i Hi. apply in_bool_index, in_seq in Hi. lia.
Qed.

Lemma take_indexed (df : list DisplayRecord) (d : DisplayRecord) (L p : list nat) :
  Forall (fun i => i < List.length df) L ->
  Forall (fun j => j < List.length L) p ->
  take df (map (fun j => nth j L 0) p) = map (fun j => nth j (take df L) d) p.
Proof.
  intros HL Hp. rewrite Forall_forall in HL, Hp.
  rewrite (take_as_map df d L) by now apply Forall_forall.
  rewrite (take_as_map df d).
  - rewrite map_map. apply map_ext_in. intros j Hj.
    rewrite (nth_indep (map (fun i => nth i df d) L) d (nth 0 df d))
      by (rewrite length_map; now apply Hp).
    now rewrite (map_nth (fun i => nth i df d)).
  - apply Forall_forall. intros i Hi. apply in_map_iff in Hi as [j [<- Hj]].
    apply HL. apply nth_In. now apply Hp.
Qed.

Lemma valores_chave (df : list DisplayRecord) :
  valores (map Preco df)
  = map chave (filter (fun r => negb (isna (Preco r))) df).
Proof.
  induction df as [| r df IH]; [reflexivity |].
  cbn [map filter]. unfold valores in *. cbn [flat_map].
  destruct (Preco r) as [v |] eqn:E; cbn [isna negb map app].
  - f_equal; [unfold chave; now rewrite E | exact IH].
  - exact IH.
Qed.

Lemma map_nth_perm {A : Type} (P : list A) (d : A) (p : list nat) :
  Permutation p (seq 0 (List.length P)) ->
  Permutation (map (fun j => nth j P d) p) P.
Proof.
  intros H. eapply Permutation_trans; [apply Permutation_map; exact H |].
  now rewrite map_nth_seq.
Qed.

Lemma map_chave_nth (P : list DisplayRecord) (d : DisplayRecord) (p : list nat) :
  Forall (fun j => j < List.length P) p ->
  map chave (map (fun j => nth j P d) p)
  = map (fun j => nth j (map chave P) 0%Z) p.
Proof.
  intros H. rewrite Forall_forall in H. rewrite map_map.
  apply map_ext_in. intros j Hj.
  rewrite (nth_indep _ 0%Z (chave d)) by (rewrite length_map; now apply H).
  now rewrite map_nth.
Qed.

Lemma StronglySorted_app {A : Type} (R : A -> A -> Prop) (l1 l2 : list A) :
  StronglySorted R l1 -> StronglySorted R l2 ->
  (forall x y, In x l1 -> In y l2 -> R x y) ->
  StronglySorted R (l1 ++ l2).
Proof.
  intros H1 H2 H. induction H1 as [| a l1 H1 IH HF]; simpl; [exact H2 |].
  constructor.
  - apply IH. intros x y Hx Hy. apply H; [now right | exact Hy].
  - apply Forall_app. split; [exact HF |].
    apply Forall_forall. intros y Hy. apply H; [now left | exact Hy].
Qed.

Lemma Sorted_le_rev (l : list Z) : Sorted Z.le l -> Sorted Z.ge (rev l).
Proof.
  intros H. apply Sorted_StronglySorted in H; [| exact Z.le_trans].
  apply StronglySorted_Sorted.
  induction H as [| a l H IH HF]; simpl; [constructor |].
  apply StronglySorted_app; [exact IH | repeat constructor |].
  intros x y Hx [<- | []]. apply in_rev in Hx.
  rewrite Forall_forall in HF. specialize (HF x Hx). lia.
Qed.

Section OrdenacaoGeral.

Variable argsort : list Z -> list nat.
Hypothesis argsort_contract : argsort_ok argsort.

(** The sorted table: the rows with a price in the order [argsort] gives,
    then the rows without a price as they were. *)
Lemma sort_values_decomp (ascending : bool) (df : list DisplayRecord) :
  exists com_preco,
    sort_values argsort ascending df
    = com_preco ++ filter (fun r => isna (Preco r)) df /\
    Permutation com_preco (filter (fun r => negb (isna (Preco r))) df) /\
    Sorted (if ascending then Z.le else Z.ge) (map chave com_preco).
Proof.
  destruct df as [| d0 df'] eqn:Edf.
  { exists []. unfold sort_values, nargsort.
    destruct (argsort_contract []) as [HP _]. simpl in HP.
    apply Permutation_sym, Permutation_nil in HP.
    destruct ascending; simpl; rewrite HP; repeat split; constructor. }
  rewrite <- Edf. clear Edf df'.
  set (priced := filter (fun r => negb (isna (Preco r))) df).
  set (ks := map chave priced).
  unfold sort_values, nargsort.
  rewrite length_map, !map_map, valores_chave. fold priced. fold ks.
  set (nni := bool_index (seq 0 (List.length df))
                         (map (fun r => negb (isna (Preco r))) df)).
  assert (Hnni : take df nni = priced).
  { unfold nni. now rewrite take_bool_index, bool_index_filter. }
  assert (Bnni : Forall (fun i => i < List.length df) nni).
  { apply Forall_forall. intros i Hi. apply in_bool_index, in_seq in Hi. lia. }
  assert (Lnni : List.length nni = List.length priced).
  { rewrite <- Hnni, (take_as_map df d0) by exact Bnni. now rewrite length_map. }
  assert (Lks : List.length ks = List.length priced) by apply length_map.
  assert (Hnan : take df (bool_index (seq 0 (List.length df))
                            (map (fun r => isna (Preco r)) df))
                 = filter (fun r => isna (Preco r)) df).
  { now rewrite take_bool_index, bool_index_filter. }
  unfold take at 1. rewrite flat_map_app. fold (take df).
  change (flat_map _ ?p) with (take df p).
  rewrite Hnan.
  destruct ascending.
  - destruct (argsort_contract ks) as [HP HS]. rewrite Lks in HP.
    assert (Bp : Forall (fun j => j < List.length priced) (argsort ks))
      by now apply perm_seq_bound.
    exists (map (fun j => nth j priced d0) (argsort ks)). split; [| split].
    + f_equal. rewrite (take_indexed df d0) by (rewrite ?Lnni; assumption).
      now rewrite Hnni.
    + now apply map_nth_perm.
    + rewrite map_chave_nth by exact Bp. exact HS.
  - destruct (argsort_contract (rev ks)) as [HP HS].
    rewrite length_rev, Lks in HP.
    assert (Bp : Forall (fun j => j < List.length priced) (argsort (rev ks)))
      by now apply perm_seq_bound.
    exists (rev (map (fun j => nth j (rev priced) d0) (argsort (rev ks)))).
    split; [| split].
    + f_equal. rewrite <- rev_take. f_equal.
      rewrite (take_indexed df d0).
      * now rewrite <- rev_take, Hnni.
      * apply Forall_forall. intros i Hi. apply in_rev in Hi.
        rewrite Forall_forall in Bnni. now apply Bnni.
      * now rewrite length_rev, Lnni.
    + eapply Permutation_trans; [symmetry; apply Permutation_rev |].
      eapply Permutation_trans; [| symmetry; apply Permutation_rev].
      apply map_nth_perm. now rewrite length_rev.
    + rewrite map_rev. apply Sorted_le_rev.
      rewrite map_chave_nth by now rewrite length_rev.
      now rewrite map_rev.
Qed.

Lemma sort_values_Permutation (ascending : bool) (df : list DisplayRecord) :
  Permutation (sort_values argsort ascending df) df.
Proof.
  destruct (sort_values_decomp ascending df) as [com_preco [-> [HP _]]].
  eapply Permutation_trans; [apply Permutation_app_tail; exact HP |].
  clear. induction df as [| r df IH]; simpl; [constructor |].
  destruct (isna (Preco r)); simpl.
  - apply Permutation_sym. eapply Permutation_trans;
      [| apply Permutation_middle]. constructor. now symmetry.
  - now constructor.
Qed.

End OrdenacaoGeral.

(** Sorting by price sorts: for an [argsort] that returns every position
    once in an order that sorts the keys, the sorted table is the rows with
    a price, in non-decreasing order of price when ascending and
    non-increasing when descending, followed by the rows without a price in
    the order they had. *)
Theorem sort_values_ordena :
  forall (argsort : list Z -> list nat) (ascending : bool)
         (df : list DisplayRecord),
    argsort_ok argsort ->
    exists com_preco,
      sort_values argsort ascending df
      = com_preco ++ filter (fun r => isna (Preco r)) df /\
      Permutation com_preco (filter (fun r => negb (isna (Preco r))) df) /\
      Sorted (if ascending then Z.le else Z.ge) (map chave com_preco).
Proof. intros argsort ascending df H. now apply sort_values_decomp. Qed.

Lemma sort_values_ordena_witness :
  exists com_preco,
    sort_values argsort_merge false (linha None :: df_distintos)
    = com_preco ++ [linha None] /\
    Permutation com_preco df_distintos /\
    Sorted Z.ge (map chave com_preco).
Proof.
  exact (sort_values_ordena argsort_merge false (linha None :: df_distintos)
           argsort_merge_ok).
Defined.

(** Sorting keeps the rows: for such an [argsort], the sorted table has the
    rows of the filtered table, each as many times, whichever order is
    chosen in the select box; so it has as many rows. *)
Theorem ordenar_permuta :
  forall (argsort : list Z -> list nat) (ordem : string)
         (df : list DisplayRecord),
    argsort_ok argsort ->
    Permutation (ordenar argsort ordem df) df /\
    List.length (ordenar argsort ordem df) = List.length df.
Proof.
  intros argsort ordem df H.
  assert (HP : Permutation (ordenar argsort ordem df) df).
  { unfold ordenar. destruct (String.eqb ordem "Menor para maior");
      now apply sort_values_Permutation. }
  split; [exact HP | now apply Permutation_length].
Qed.

Lemma ordenar_permuta_witness :
  Permutation (ordenar argsort_merge "Maior para menor" df_sem_preco) df_sem_preco /\
  List.length (ordenar argsort_merge "Maior para menor" df_sem_preco)
  = List.length df_sem_preco.
Proof.
  exact (ordenar_permuta argsort_merge "Maior para menor" df_sem_preco
           argsort_merge_ok).
Defined.

(** With pages of at most fifty products and such an [argsort], a table
    shown by the page has at most 500 rows. *)
Theorem main_tabela_no_maximo_500 :
  forall (lower : string -> string) (argsort : list Z -> list nat)
         (rede : nat -> Request -> http_outcome) (busca ordem : string)
         (filtro_frete : bool) (condicao : list string) (s s' : Sessao)
         (df : list DisplayRecord),
    argsort_ok argsort ->
    PaginasNoLimite rede ->
    main lower argsort rede busca ordem filtro_frete condicao s = (Ok (Some df), s') ->
    List.length df <= 500.
Proof.
  intros lower argsort rede busca ordem filtro_frete condicao s s' df Hok Hlim E.
  destruct busca as [| c busca]; [discriminate |].
  unfold main, bind in E. rewrite buscar_todos_run in E.
  set (todos := flat_map produtos_da_resposta _) in E.
  assert (Htodos : List.length todos <= 500).
  { apply (respostas_no_limite rede (String c busca) (py_range 0 500 50)).
    exact Hlim. }
  pose proof (processar_busca_exata_Subseq lower todos (String c busca)) as HS.
  apply Subseq_length in HS.
  destruct (processar_busca_exata lower todos (String c busca)) as [| p ps] eqn:EP;
    [discriminate |].
  injection E as <- _.
  assert (HP : Permutation
                 (ordenar argsort ordem (filtrar filtro_frete condicao (p :: ps)))
                 (filtrar filtro_frete condicao (p :: ps))).
  { unfold ordenar. destruct (String.eqb ordem "Menor para maior");
      now apply sort_values_Permutation. }
  apply Permutation_length in HP. rewrite HP.
  pose proof (filtrar_Subseq filtro_frete condicao (p :: ps)) as HF.
  apply Subseq_length in HF. rewrite length_map in HF. lia.
Qed.

Lemma main_tabela_no_maximo_500_witness :
  exists df s',
    main Str.ascii_lower argsort_merge rede_300 "notebook" "Menor para maior"
         true ["Novo"] sessao_inicial = (Ok (Some df), s') /\
    List.length df <= 500.
Proof.
  exists (repeat (extrair_dados_produto produto_completo) 10),
         {| chamadas := pedidos "notebook"; tela := [] |}.
  assert (E : main Str.ascii_lower argsort_merge rede_300 "notebook"
                   "Menor para maior" true ["Novo"] sessao_inicial
              = (Ok (Some (repeat (extrair_dados_produto produto_completo) 10)),
                 {| chamadas := pedidos "notebook"; tela := [] |}))
    by reflexivity.
  split; [exact E |].
  apply (main_tabela_no_maximo_500 Str.ascii_lower argsort_merge rede_300
           "notebook" "Menor para maior" true ["Novo"] sessao_inicial
           {| chamadas := pedidos "notebook"; tela := [] |}
           (repeat (extrair_dados_produto produto_completo) 10)
           argsort_merge_ok).
  - intros n req st results H. injection H as _ <-. simpl. lia.
  - exact E.
Defined.

(** ** The price metrics *)

Lemma fold_min_spec (vs : list Z) :
  forall v, In (fold_left Z.min vs v) (v :: vs) /\
            Forall (Z.le (fold_left Z.min vs v)) (v :: vs).
Proof.
  induction vs as [| w vs IH]; intros v; simpl.
  - split; [now left | repeat constructor; lia].
  - destruct (IH (Z.min v w)) as [Hin HF]. simpl in Hin.
    inversion HF as [| ? ? Hm HF']; subst. split.
    + destruct Hin as [Hin | Hin]; [| now right; right].
      rewrite <- Hin. destruct (Z.min_spec v w) as [[_ ->] | [_ ->]]; auto.
    + repeat constructor; try exact HF'; lia.
Qed.

Lemma fold_max_spec (vs : list Z) :
  forall v, In (fold_left Z.max vs v) (v :: vs) /\
            Forall (fun x => (x <= fold_left Z.max vs v)%Z) (v :: vs).
Proof.
  induction vs as [| w vs IH]; intros v; simpl.
  - split; [now left | repeat constructor; lia].
  - destruct (IH (Z.max v w)) as [Hin HF]. simpl in Hin.
    inversion HF as [| ? ? Hm HF']; subst. split.
    + destruct Hin as [Hin | Hin]; [| now right; right].
      rewrite <- Hin. destruct (Z.max_spec v w) as [[_ ->] | [_ ->]]; auto.
    + repeat constructor; try exact HF'; lia.
Qed.

Lemma in_valores (items : list (option Z)) (v : Z) :
  In v (valores items) <-> In (Some v) items.
Proof.
  unfold valores. rewrite in_flat_map. split.
  - intros [[w |] [Hx Hv]]; simpl in Hv; [| contradiction].
    destruct Hv as [-> | []]. exact Hx.
  - intros H. exists (Some v). split; [exact H | now left].
Qed.

Lemma serie_min_spec (items : list (option Z)) :
  match serie_min items with
  | Some m => In (Some m) items /\ forall v, In (Some v) items -> (m <= v)%Z
  | None => forall v, ~ In (Some v) items
  end.
Proof.
  unfold serie_min. destruct (valores items) as [| v vs] eqn:E.
  - intros v H. apply in_valores in H. rewrite E in H. contradiction.
  - destruct (fold_min_spec vs v) as [Hin HF]. rewrite <- E in Hin, HF. split.
    + now apply in_valores.
    + intros w Hw. apply in_valores in Hw. rewrite Forall_forall in HF.
      now apply HF.
Qed.

Lemma serie_max_spec (items : list (option Z)) :
  match serie_max items with
  | Some m => In (Some m) items /\ forall v, In (Some v) items -> (v <= m)%Z
  | None => forall v, ~ In (Some v) items
  end.
Proof.
  unfold serie_max. destruct (valores items) as [| v vs] eqn:E.
  - intros v H. apply in_valores in H. rewrite E in H. contradiction.
  - destruct (fold_max_spec vs v) as [Hin HF]. rewrite <- E in Hin, HF. split.
    + now apply in_valores.
    + intros w Hw. apply in_valores in Hw. rewrite Forall_forall in HF.
      now apply (HF w).
Qed.

(** The minimum and the maximum shown are prices of rows of the table and
    bound the price of every row that has one; they are missing exactly
    when no row has a price. *)
Theorem metricas_min_max :
  forall df : list DisplayRecord,
    match serie_min (map Preco df), serie_max (map Preco df) with
    | Some lo, Some hi =>
        (exists r, In r df /\ Preco r = Some lo) /\
        (exists r, In r df /\ Preco r = Some hi) /\
        (forall r v, In r df -> Preco r = Some v -> (lo <= v <= hi)%Z)
    | None, None => forall r, In r df -> Preco r = None
    | _, _ => False
    end.
Proof.
  intros df.
  pose proof (serie_min_spec (map Preco df)) as Hmin.
  pose proof (serie_max_spec (map Preco df)) as Hmax.
  destruct (serie_min (map Preco df)) as [lo |],
           (serie_max (map Preco df)) as [hi |].
  - destruct Hmin as [Hlo Hle], Hmax as [Hhi Hge].
    apply in_map_iff in Hlo as [rl [El Hl]]. apply in_map_iff in Hhi as [rh [Eh Hh]].
    split; [now exists rl |]. split; [now exists rh |].
    intros r v Hr Ev.
    assert (Hv : In (Some v) (map Preco df))
      by (rewrite <- Ev; now apply in_map).
    split; [now apply Hle | now apply Hge].
  - destruct Hmin as [Hlo _]. now apply Hmax in Hlo.
  - destruct Hmax as [Hhi _]. now apply Hmin in Hhi.
  - intros r Hr. destruct (Preco r) as [v |] eqn:E; [| reflexivity].
    exfalso. apply (Hmin v). rewrite <- E. now apply in_map.
Qed.

Lemma serie_Permutation (l1 l2 : list (option Z)) :
  Permutation l1 l2 ->
  serie_min l1 = serie_min l2 /\ serie_max l1 = serie_max l2.
Proof.
  intros HP.
  assert (Hin : forall v, In (Some v) l1 <-> In (Some v) l2).
  { intros v. split; apply Permutation_in; [exact HP | now symmetry]. }
  pose proof (serie_min_spec l1) as A1. pose proof (serie_min_spec l2) as A2.
  pose proof (serie_max_spec l1) as B1. pose proof (serie_max_spec l2) as B2.
  split.
  - destruct (serie_min l1) as [m1 |], (serie_min l2) as [m2 |].
    + destruct A1 as [I1 L1], A2 as [I2 L2]. f_equal.
      apply Hin in I1. apply Hin in I2.
      specialize (L1 m2 I2). specialize (L2 m1 I1). lia.
    + destruct A1 as [I1 _]. apply Hin in I1. now apply A2 in I1.
    + destruct A2 as [I2 _]. apply Hin in I2. now apply A1 in I2.
    + reflexivity.
  - destruct (serie_max l1) as [m1 |], (serie_max l2) as [m2 |].
    + destruct B1 as [I1 L1], B2 as [I2 L2]. f_equal.
      apply Hin in I1. apply Hin in I2.
      specialize (L1 m2 I2). specialize (L2 m1 I1). lia.
    + destruct B1 as [I1 _]. apply Hin in I1. now apply B2 in I1.
    + destruct B2 as [I2 _]. apply Hin in I2. now apply B1 in I2.
    + reflexivity.
Qed.

(** The minimum and the maximum do not depend on the order chosen: they are
    those of the table before sorting. *)
Theorem metricas_independem_da_ordem :
  forall (argsort : list Z -> list nat) (ordem : string)
         (df : list DisplayRecord),
    argsort_ok argsort ->
    serie_min (map Preco (ordenar argsort ordem df)) = serie_min (map Preco df) /\
    serie_max (map Preco (ordenar argsort ordem df)) = serie_max (map Preco df).
Proof.
  intros argsort ordem df H. apply serie_Permutation. apply Permutation_map.
  unfold ordenar. destruct (String.eqb ordem "Menor para maior");
    now apply sort_values_Permutation.
Qed.

Lemma metricas_independem_da_ordem_witness :
  serie_min (map Preco (ordenar argsort_merge "Maior para menor" df_distintos))
  = Some 10%Z /\
  serie_max (map Preco (ordenar argsort_merge "Maior para menor" df_distintos))
  = Some 30%Z.
Proof.
  exact (metricas_independem_da_ordem argsort_merge "Maior para menor"
           df_distintos argsort_merge_ok).
Defined.

(** ** The encoding of the query *)

Ltac todos_os_bytes c :=
  destruct c as [[|] [|] [|] [|] [|] [|] [|] [|]].

Lemma all_chars_app (P : ascii -> bool) (a b : string) :
  all_chars P (a ++ b)%string = all_chars P a && all_chars P b.
Proof.
  induction a as [| c a IH]; simpl; [reflexivity |].
  now rewrite IH, andb_assoc.
Qed.

Lemma quote_char_alfabeto (c : ascii) :
  all_chars (fun d => seguro d || Ascii.eqb d percent) (quote_char c) = true.
Proof. todos_os_bytes c; reflexivity. Qed.

Lemma unquote_quote_char (c : ascii) (r : string) :
  unquote (quote_char c ++ r)%string = String c (unquote r).
Proof. todos_os_bytes c; reflexivity. Qed.

Lemma tem_char_all_chars (P : ascii -> bool) (s : string) (d : ascii) :
  all_chars P s = true -> P d = false -> tem_char d s = false.
Proof.
  induction s as [| c s IH]; simpl; intros H Hd; [reflexivity |].
  apply andb_true_iff in H as [Hc Hs]. rewrite IH by assumption.
  rewrite orb_false_r. apply Ascii.eqb_neq. intros ->. congruence.
Qed.

(** The encoded query is made of the characters [quote] keeps and of the
    percent sign: no other character occurs in it, so no space, quote,
    ampersand, equals sign, question mark or hash. *)
Theorem quote_alfabeto :
  forall query : string,
    all_chars (fun d => seguro d || Ascii.eqb d percent) (quote query) = true /\
    (forall d, seguro d = false -> d <> percent ->
               tem_char d (quote query) = false).
Proof.
  intros query.
  assert (H : all_chars (fun d => seguro d || Ascii.eqb d percent) (quote query)
              = true).
  { induction query as [| c q IH]; simpl; [reflexivity |].
    now rewrite all_chars_app, quote_char_alfabeto, IH. }
  split; [exact H |].
  intros d Hd Hp.
  apply (tem_char_all_chars _ _ d H).
  rewrite Hd. simpl. now apply Ascii.eqb_neq.
Qed.

Lemma quote_alfabeto_witness :
  tem_char "&" (quote "tv&offset=9") = false /\
  tem_char " " (quote "tv 4k") = false.
Proof.
  split.
  - apply (proj2 (quote_alfabeto "tv&offset=9")); [reflexivity | discriminate].
  - apply (proj2 (quote_alfabeto "tv 4k")); [reflexivity | discriminate].
Defined.

(** The encoding loses nothing: decoding gives the query back, so two
    different queries are never sent as the same encoded query. *)
Theorem quote_injetiva :
  (forall query : string, unquote (quote query) = query) /\
  (forall query1 query2 : string, quote query1 = quote query2 -> query1 = query2).
Proof.
  assert (H : forall query, unquote (quote query) = query).
  { induction query as [| c q IH]; [reflexivity |].
    cbn [quote]. now rewrite unquote_quote_char, IH. }
  split; [exact H |].
  intros query1 query2 E. rewrite <- (H query1), <- (H query2). now rewrite E.
Qed.

Lemma quote_injetiva_witness :
  quote "tv 4k" = quote "tv 4k" /\ unquote (quote "tv 4k") = "tv 4k".
Proof.
  split; [reflexivity |]. exact (proj1 quote_injetiva "tv 4k").
Defined.

(** A query of letters, digits and the characters [_ . - ~ /] is sent as it
    is. *)
Theorem quote_texto_seguro :
  forall query : string, all_chars seguro query = true -> quote query = query.
Proof.
  induction query as [| c q IH]; intros H; [reflexivity |].
  simpl in H. apply andb_true_iff in H as [Hc Hq].
  cbn [quote]. unfold quote_char. rewrite Hc. simpl. now rewrite IH.
Qed.

Lemma quote_texto_seguro_witness : quote "notebook-dell_i5" = "notebook-dell_i5".
Proof. apply (quote_texto_seguro "notebook-dell_i5"). reflexivity. Defined.

(** ** The formatted price *)

Lemma trocar_char (c : ascii) :
  Ascii.eqb c "X" = false ->
  (if Ascii.eqb
        (if Ascii.eqb (if Ascii.eqb c "," then "X"%char else c) "."
         then ","%char
         else (if Ascii.eqb c "," then "X"%char else c)) "X"
   then "."%char
   else (if Ascii.eqb (if Ascii.eqb c "," then "X"%char else c) "."
         then ","%char
         else (if Ascii.eqb c "," then "X"%char else c)))
  = troca c.
Proof. todos_os_bytes c; intros H; try reflexivity; discriminate. Qed.

Lemma troca_troca (c : ascii) : troca (troca c) = c.
Proof. todos_os_bytes c; reflexivity. Qed.

Lemma troca_X (c : ascii) :
  Ascii.eqb c "X" = false -> Ascii.eqb (troca c) "X" = false.
Proof. todos_os_bytes c; intros H; try reflexivity; discriminate. Qed.

Lemma trocar_separadores_map (s : string) :
  tem_char "X" s = false -> trocar_separadores s = map_string troca s.
Proof.
  unfold trocar_separadores. induction s as [| c s IH]; simpl; intros H;
    [reflexivity |].
  apply orb_false_iff in H as [Hc Hs].
  rewrite IH by exact Hs. f_equal. now apply trocar_char.
Qed.

(** On a text without the letter X, as the formatted numbers are, the three
    replacements exchange the commas and the full stops and leave the rest
    as it is; done twice, they give the text back. *)
Theorem trocar_separadores_troca :
  forall s : string,
    tem_char "X" s = false ->
    trocar_separadores s = map_string troca s /\
    String.length (trocar_separadores s) = String.length s /\
    trocar_separadores (trocar_separadores s) = s.
Proof.
  intros s H. rewrite (trocar_separadores_map s H).
  assert (HX : tem_char "X" (map_string troca s) = false).
  { induction s as [| c s IH]; [reflexivity |].
    simpl in H. apply orb_false_iff in H as [Hc Hs].
    cbn [map_string tem_char]. rewrite (troca_X c Hc). simpl. now apply IH. }
  split; [reflexivity |]. split.
  - clear. induction s as [| c s IH]; simpl; [reflexivity | now rewrite IH].
  - rewrite (trocar_separadores_map _ HX). clear.
    induction s as [| c s IH]; simpl; [reflexivity |].
    now rewrite troca_troca, IH.
Qed.

Lemma trocar_separadores_troca_witness :
  trocar_separadores "R$ 1,234,567.89" = "R$ 1.234.567,89" /\
  trocar_separadores (trocar_separadores "R$ 1,234,567.89") = "R$ 1,234,567.89".
Proof.
  destruct (trocar_separadores_troca "R$ 1,234,567.89") as [H1 [_ H3]];
    [reflexivity |].
  split; [rewrite H1; reflexivity | exact H3].
Defined.

(** ** The offsets *)

(** [range(start, stop, step)] with a positive step has the numbers
    [start + k * step] below [stop], each once and in increasing order. *)
Theorem py_range_spec :
  forall start stop step : Z,
    (0 < step)%Z ->
    (forall x, In x (py_range start stop step) <->
               exists k : nat, x = (start + step * Z.of_nat k)%Z /\ (x < stop)%Z) /\
    StronglySorted Z.lt (py_range start stop step).
Proof.
  intros start stop step Hstep. unfold py_range.
  set (c := ((stop - start + step - 1) / step)%Z).
  assert (Hc : forall k : nat,
             k < Z.to_nat c <-> (start + step * Z.of_nat k < stop)%Z).
  { intros k.
    pose proof (Z.div_mod (stop - start + step - 1) step) as D.
    pose proof (Z.mod_pos_bound (stop - start + step - 1) step Hstep) as B.
    fold c in D. specialize (D ltac:(lia)). split; intros H; nia. }
  split.
  - intros x. rewrite in_map_iff. split.
    + intros [k [<- Hk]]. apply in_seq in Hk. exists k. split; [reflexivity |].
      apply Hc. lia.
    + intros [k [-> Hk]]. exists k. split; [reflexivity |].
      apply in_seq. apply Hc in Hk. lia.
  - generalize (Z.to_nat c) as n. intros n. generalize 0 as a.
    induction n as [| n IH]; intros a; simpl; constructor.
    + apply IH.
    + apply Forall_forall. intros x Hx. apply in_map_iff in Hx as [k [<- Hk]].
      apply in_seq in Hk. nia.
Qed.

Lemma py_range_spec_witness :
  In 450%Z (py_range 0 500 50) /\ ~ In 500%Z (py_range 0 500 50) /\
  StronglySorted Z.lt (py_range 0 500 50).
Proof.
  destruct (py_range_spec 0 500 50) as [H S]; [lia |].
  split; [| split; [| exact S]].
  - apply H. exists 9. split; [reflexivity | lia].
  - intros Hin. apply H in Hin as [k [_ Hk]]. lia.
Defined.
